(** * VTIL-Common/util/type_helpers.hpp

    A shallow embedding of the type-level helpers of [type_helpers.hpp].
    The header is a template library: its "program" is a set of functions
    from C++ types (and compile-time values) to types, booleans and small
    run-time functions.  Types are embedded as a syntax tree, the standard
    traits the header calls ([std::remove_cvref_t], [std::add_const_t],
    [std::is_pointer_v], ...) as functions over that tree, and each template
    of the header as a Rocq function named after it.  An ill-formed
    instantiation (a missing member [::type], a failed deduction, a failed
    [static_assert]) is a [None] or an explicit error value, never a made-up
    result. *)

From Stdlib Require Import ZArith List String Bool Lia.
Import ListNotations.
Local Open Scope string_scope.
Local Open Scope Z_scope.
Set Warnings "-register-all".

(** ** C++ types *)

Module Types.

(** Top-level cv-qualification of a type. *)
Record cv := CV { is_c : bool; is_v : bool }.

Definition unqualified : cv := CV false false.
Definition const_q : cv := CV true false.
Definition volatile_q : cv := CV false true.
Definition const_volatile_q : cv := CV true true.

Inductive arith :=
| Bool_t | Char_t | Int8_t | UInt8_t | Int32_t | UInt32_t | Int64_t | UInt64_t
| Float_t | Double_t.

(** The fragment of the C++ type language the helpers are exercised on:
    void, arithmetic types, named classes, instantiations [Tmp<Tx...>] of a
    template over type arguments, pointers, lvalue and rvalue references and
    function types.  Object types carry their own cv-qualifiers; references
    and function types cannot be cv-qualified.  Array types are left out. *)
Inductive type :=
| Void (q : cv)
| Arith (q : cv) (k : arith)
| Class (q : cv) (name : string)
| Inst (q : cv) (tmp : string) (args : list type)
| Ptr (q : cv) (pointee : type)
| LRef (referent : type)
| RRef (referent : type)
| Fun (ret : type) (params : list type).

(** [std::is_reference_v], [std::is_pointer_v], [std::is_const_v],
    [std::is_function_v]. *)
Definition is_reference_v (t : type) : bool :=
  match t with LRef _ | RRef _ => true | _ => false end.

Definition is_lvalue_reference_v (t : type) : bool :=
  match t with LRef _ => true | _ => false end.

Definition is_pointer_v (t : type) : bool :=
  match t with Ptr _ _ => true | _ => false end.

Definition is_function_v (t : type) : bool :=
  match t with Fun _ _ => true | _ => false end.

Definition cv_of (t : type) : cv :=
  match t with
  | Void q | Arith q _ | Class q _ | Inst q _ _ | Ptr q _ => q
  | LRef _ | RRef _ | Fun _ _ => unqualified
  end.

Definition is_const_v (t : type) : bool := is_c (cv_of t).

(** Replaces the top-level qualifiers of an object type; references and
    function types have none to replace. *)
Definition with_cv (q : cv) (t : type) : type :=
  match t with
  | Void _ => Void q
  | Arith _ k => Arith q k
  | Class _ n => Class q n
  | Inst _ tmp args => Inst q tmp args
  | Ptr _ p => Ptr q p
  | LRef _ | RRef _ | Fun _ _ => t
  end.

(** [std::add_const_t]: the type itself for a reference, a function or an
    already const-qualified type, [const T] otherwise. *)
Definition add_const_t (t : type) : type :=
  with_cv (CV true (is_v (cv_of t))) t.

(** [std::remove_const_t]: drops the top-level [const] only. *)
Definition remove_const_t (t : type) : type :=
  with_cv (CV false (is_v (cv_of t))) t.

(** [std::remove_cv_t], [std::remove_reference_t], [std::remove_cvref_t]. *)
Definition remove_cv_t (t : type) : type := with_cv unqualified t.

Definition remove_reference_t (t : type) : type :=
  match t with LRef r | RRef r => r | _ => t end.

Definition remove_cvref_t (t : type) : type :=
  remove_cv_t (remove_reference_t t).

(** [std::conditional_t]. *)
Definition conditional_t {A : Type} (c : bool) (a b : A) : A :=
  if c then a else b.

(** Handy names for the examples. *)
Definition int_t : type := Arith unqualified Int32_t.
Definition const_int_t : type := Arith const_q Int32_t.
Definition float_t : type := Arith unqualified Float_t.

End Types.
Import Types.

(** ** Const-qualifier transforms (lines 105-151 of the header) *)

Module ConstHelpers.

(** [impl::decay_ptr<T>]: a pointer type hidden behind a reference or a
    top-level qualifier is taken by value; any other type is kept. *)
Definition decay_ptr (T : type) : type :=
  conditional_t (is_pointer_v (remove_cvref_t T)) (remove_cvref_t T) T.

(** [impl::make_const<T>::type].  The primary template has no member
    [type]; only [T&] and the unqualified [T*] are specialised. *)
Definition impl_make_const (T : type) : option type :=
  match T with
  | LRef t => Some (LRef (add_const_t t))
  | Ptr (CV false false) t => Some (Ptr unqualified (add_const_t t))
  | _ => None
  end.

(** [impl::make_mutable<T>::type]. *)
Definition impl_make_mutable (T : type) : option type :=
  match T with
  | LRef t => Some (LRef (remove_const_t t))
  | Ptr (CV false false) t => Some (Ptr unqualified (remove_const_t t))
  | _ => None
  end.

(** [impl::is_const_underlying<T>::value]: true on [const T&] and on
    [const T*], false on the primary template. *)
Definition impl_is_const_underlying (T : type) : bool :=
  match T with
  | LRef t => is_const_v t
  | Ptr (CV false false) t => is_const_v t
  | _ => false
  end.

Definition is_const_underlying_v (T : type) : bool :=
  impl_is_const_underlying (decay_ptr T).

Definition is_mutable_underlying_v (T : type) : bool :=
  negb (impl_is_const_underlying (decay_ptr T)).

Definition make_const_t (T : type) : option type :=
  impl_make_const (decay_ptr T).

Definition make_mutable_t (T : type) : option type :=
  impl_make_mutable (decay_ptr T).

(** [make_const_if_t<C, T>] and [make_mutable_if_t<C, T>].  The arguments
    of [std::conditional_t] are instantiated before one of them is selected,
    so the alias is ill-formed as soon as the transform is, whatever [C]. *)
Definition make_const_if_t (C : bool) (T : type) : option type :=
  match make_const_t T with
  | Some Tc => Some (conditional_t C Tc T)
  | None => None
  end.

Definition make_mutable_if_t (C : bool) (T : type) : option type :=
  match make_mutable_t T with
  | Some Tm => Some (conditional_t C Tm T)
  | None => None
  end.

(** [carry_const_t<B, T>]: the qualifier of [B]'s underlying type decides
    between the const and the mutable form of [T]. *)
Definition carry_const_t (B T : type) : option type :=
  match make_const_t T, make_mutable_t T with
  | Some Tc, Some Tm => Some (conditional_t (is_const_underlying_v B) Tc Tm)
  | _, _ => None
  end.

(** The types on which the const transforms are defined: lvalue references,
    and pointers once references and qualifiers on the pointer itself are
    dropped. *)
Definition const_transformable (T : type) : bool :=
  is_lvalue_reference_v T || is_pointer_v (remove_cvref_t T).

End ConstHelpers.
Import ConstHelpers.

(** ** Specialization detection (lines 42-52) *)

Module Specialization.

(** [impl::is_specialization_v<Tmp, T>]: the primary template is [false]; the
    partial specialization on [Tmp<Tx...>] is [true], for any [Tx...].  A
    template is identified by its name. *)
Definition impl_is_specialization_v (Tmp : string) (T : type) : bool :=
  match T with
  | Inst (CV false false) tmp _ => String.eqb Tmp tmp
  | _ => false
  end.

Definition is_specialization_v (Tmp : string) (T : type) : bool :=
  impl_is_specialization_v Tmp (remove_cvref_t T).

(** The cv- and reference-qualified variants of a type. *)
Variant ref_kind := ByValue | ByLRef | ByRRef.

Definition qualified (q : cv) (r : ref_kind) (T : type) : type :=
  match r with
  | ByValue => with_cv q T
  | ByLRef => LRef (with_cv q T)
  | ByRRef => RRef (with_cv q T)
  end.

End Specialization.
Import Specialization.

(** ** Typed offset access (lines 157-171) *)

Module Offsets.

(** Conversions to [uint64_t] and to [int32_t]: the low 64 bits, and the low
    32 bits read in two's complement. *)
Definition uint64_cast (z : Z) : Z := Z.land z (Z.ones 64).

Definition int32_cast (z : Z) : Z :=
  let low := Z.land z (Z.ones 32) in
  if Z.testbit low 31 then low - 2 ^ 32 else low.

Definition INT32_MIN : Z := - 2 ^ 31.
Definition INT32_MAX : Z := 2 ^ 31 - 1.

(** A pointer value: its static type (a pointer type) and the address it
    holds.  An lvalue: the type of the object and where it lives. *)
Record pointer := { ptr_type : type; ptr_addr : Z }.
Record lvalue := { lv_type : type; lv_addr : Z }.

(** A pointer to data member [V C::*]: the class, the member's type and the
    member's byte offset inside the class. *)
Record member_ptr := { mp_class : type; mp_member : type; mp_offset : Z }.

(** [make_null<T>()]. *)
Definition make_null (T : type) : pointer :=
  {| ptr_type := Ptr unqualified T; ptr_addr := 0 |}.

(** [p->*ref], [&lv] and [*p]. *)
Definition arrow_star (p : pointer) (ref : member_ptr) : lvalue :=
  {| lv_type := mp_member ref; lv_addr := ptr_addr p + mp_offset ref |}.

Definition address_of (lv : lvalue) : pointer :=
  {| ptr_type := Ptr unqualified (lv_type lv); ptr_addr := lv_addr lv |}.

Definition deref (p : pointer) : lvalue :=
  {| lv_type := match ptr_type p with Ptr _ t => t | t => t end;
     lv_addr := ptr_addr p |}.

(** [make_offset( V C::* ref )]:
    [( int32_t ) ( uint64_t ) &( make_null<C>()->*ref )]. *)
Definition make_offset (ref : member_ptr) : Z :=
  int32_cast
    (uint64_cast (ptr_addr (address_of (arrow_star (make_null (mp_class ref)) ref)))).

(** [carry_const( B&& base, T&& value )]: the value cast to
    [carry_const_t<B, T>]; [B] and [T] are the deduced template arguments. *)
Definition carry_const (B T : type) (value : pointer) : option pointer :=
  match carry_const_t B T with
  | Some R => Some {| ptr_type := R; ptr_addr := ptr_addr value |}
  | None => None
  end.

(** [ptr_at<T, B>( B* base, int32_t off )]; [B] is deduced from the
    argument.  The sum is taken in [uint64_t], with [off] converted to it.
    [base] is a named parameter, so [carry_const] deduces [B*&] for it, and
    [T*] for the cast prvalue.  There is no pointer to a reference: for a
    reference type [T] the cast [( T* )] is ill-formed. *)
Definition ptr_at (T : type) (base : pointer) (off : Z) : option pointer :=
  match ptr_type base with
  | Ptr _ B =>
    if is_reference_v T then None
    else
      carry_const (LRef (Ptr unqualified B)) (Ptr unqualified T)
        {| ptr_type := Ptr unqualified T;
           ptr_addr :=
             uint64_cast (uint64_cast (ptr_addr base) + uint64_cast off) |}
  | _ => None
  end.

(** [ref_at<T, B>( B* base, int32_t off )]: [*ptr_at<T>( base, off )].  A
    pointer to void cannot be dereferenced. *)
Definition ref_at (T : type) (base : pointer) (off : Z) : option lvalue :=
  match T with
  | Void _ => None
  | _ => option_map deref (ptr_at T base off)
  end.

(** *** Reading the casts arithmetically

    A 32-bit pattern read as a signed number, and the pointer type that
    carries the constness of a base onto a target. *)
Definition reinterpret_signed32 (u : Z) : Z :=
  if u <? 2 ^ 31 then u else u - 2 ^ 32.

Definition pointer_like (B T : type) : type :=
  Ptr unqualified (if is_const_v B then add_const_t T else remove_const_t T).

(** A member far into a class of more than 2 GiB, and a small one. *)
Definition far_member : member_ptr :=
  {| mp_class := Class unqualified "big"; mp_member := int_t;
     mp_offset := 2 ^ 31 |}.

Definition near_member : member_ptr :=
  {| mp_class := Class unqualified "small"; mp_member := const_int_t;
     mp_offset := 24 |}.

End Offsets.
Import Offsets.

(** ** Compile-time series (lines 178-198) *)

Module Series.

(** What [std::array{ x... }] deduces to.  The deduction guide
    [array(T, U...) -> array<T, 1 + sizeof...(U)>] needs a first element, so
    an empty list deduces nothing.  With exactly one element that is itself a
    [std::array], the copy deduction candidate is the better match and the
    result is that element, not an array around it. *)
Variant deduced (A : Type) :=
| Array (N : nat) (elems : list A)
| CopyOf (a : A).
Arguments Array {A} N elems.
Arguments CopyOf {A} a.

Definition std_array_deduce {A : Type} (elem_is_std_array : bool) (xs : list A)
  : option (deduced A) :=
  match xs with
  | [] => None
  | [x] => if elem_is_std_array then Some (CopyOf x) else Some (Array 1 [x])
  | x :: rest => Some (Array (1 + List.length rest) (x :: rest))
  end.

(** [std::make_integer_sequence<Ti, N>]: the indices 0, ..., N-1; ill-formed
    for a negative [N]. *)
Definition make_integer_sequence (N : Z) : option (list Z) :=
  if N <? 0 then None else Some (map Z.of_nat (seq 0 (Z.to_nat N))).

Section WithElement.
Context {A : Type}.
(** Whether the result type of the callable is a specialization of
    [std::array]. *)
Variable elem_is_std_array : bool.

(** [impl::make_expanded_series( f, std::integer_sequence<Ti, I...> )]:
    [std::array{ f( I )... }]. *)
Definition impl_make_expanded_series (f : Z -> A) (idx : list Z)
  : option (deduced A) :=
  std_array_deduce elem_is_std_array (map f idx).

(** [make_expanded_series<N>( f )]. *)
Definition make_expanded_series (N : Z) (f : Z -> A) : option (deduced A) :=
  match make_integer_sequence N with
  | Some idx => impl_make_expanded_series f idx
  | None => None
  end.

End WithElement.

End Series.
Import Series.

(** ** Static values and the static default (lines 77-103) *)

Module StaticValues.

(** A non-type template argument: a value together with its type. *)
Record param := { param_type : type; param_value : Z }.

(** The object [impl::static_allocator<T, params...>::value], named by the
    specialization that owns it. *)
Variant static_object :=
| static_allocator_value (T : type) (params : list param).

(** A reference: the type it has and the object it is bound to. *)
Record reference := { ref_type : type; ref_object : static_object }.

(** [make_static<T, params...>()] and [make_default<T>()], both returning
    [const T&]. *)
Definition make_static (T : type) (params : list param) : reference :=
  {| ref_type := LRef (add_const_t T);
     ref_object := static_allocator_value T params |}.

Definition make_default (T : type) : reference := make_static T [].

(** The outcome of asking [static_default] for a conversion through one of
    its two conversion operator templates. *)
Variant conversion :=
| ConvertsTo (r : reference)
| NotViable
| IllFormed (msg : string)
| Unreachable.

Definition SIZE_MAX : Z := 2 ^ 64 - 1.
Definition PTRDIFF_MAX : Z := 2 ^ 63 - 1.

Definition arith_size (k : arith) : Z :=
  match k with
  | Bool_t | Char_t | Int8_t | UInt8_t => 1
  | Int32_t | UInt32_t | Float_t => 4
  | Int64_t | UInt64_t | Double_t => 8
  end.

Definition decay_message : string :=
  "Static default immediately decays, unnecessary use.".

Definition incomplete_message : string :=
  "invalid application of sizeof to an incomplete or function type".

Definition no_default_message : string :=
  "static_allocator<T>::value cannot be defined and initialised from {}".

(** What initialising an object gives: a copy of an object that exists at
    run time, or no program at all. *)
Variant initialized :=
| CopiedFrom (object : static_object)
| NotInitialized (why : conversion).

Section WithSizes.
(** The sizes of the program's class types and template instantiations;
    [None] for an incomplete type. *)
Variable class_size : string -> option Z.
Variable inst_size : string -> list type -> option Z.
(** Whether [const T value = {};] compiles for a complete class or
    instantiation [T]: an aggregate whose members can be value-initialised,
    or a class with a default constructor that is not explicit. *)
Variable class_initialisable : string -> bool.
Variable inst_initialisable : string -> list type -> bool.

(** [sizeof( T )]. *)
Fixpoint sizeof (T : type) : option Z :=
  match T with
  | Void _ | Fun _ _ => None
  | Arith _ k => Some (arith_size k)
  | Class _ n => class_size n
  | Inst _ tmp args => inst_size tmp args
  | Ptr _ _ => Some 8
  | LRef r | RRef r => sizeof r
  end.

(** Whether [impl::static_allocator<T>::value], defined as
    [inline static const T value = {};], exists: [T] must be a complete
    object type that can be initialised from an empty list. *)
Definition default_instance_exists (T : type) : bool :=
  match T with
  | Arith _ _ | Ptr _ _ => true
  | Class _ n =>
    match class_size n with
    | Some _ => class_initialisable n
    | None => false
    end
  | Inst _ tmp args =>
    match inst_size tmp args with
    | Some _ => inst_initialisable tmp args
    | None => false
    end
  | Void _ | Fun _ _ | LRef _ | RRef _ => false
  end.

(** [static_default.operator const T&()], enabled for non-reference [T].
    There is no reference to void, so for void the template is no candidate;
    for any other type the body returns [make_default<T>()], which
    instantiates the default instance and does not compile without one. *)
Definition operator_const_ref (T : type) : conversion :=
  if negb (is_reference_v T) then
    match T with
    | Void _ => NotViable
    | _ =>
      if default_instance_exists T then ConvertsTo (make_default T)
      else IllFormed no_default_message
    end
  else NotViable.

(** [static_default.operator T()], enabled for non-reference [T]:
    [static_assert( sizeof( T ) == -1, ... ); unreachable();].  The
    comparison is made in [size_t], where [-1] is [SIZE_MAX]. *)
Definition operator_value (T : type) : conversion :=
  if negb (is_reference_v T) then
    match sizeof T with
    | Some n => if n =? SIZE_MAX then Unreachable else IllFormed decay_message
    | None => IllFormed incomplete_message
    end
  else NotViable.

(** [const T& r = static_default;], and the binding of any parameter of
    type [const T&], such as that of a copy constructor: only a conversion
    function that yields an lvalue is a candidate, and of the two operators
    that is [operator const T&]. *)
Definition bind_const_reference (T : type) : conversion :=
  operator_const_ref T.

(** [T x( static_default );] for a class [T] whose copy constructor
    [T( const T& )] is its only constructor that can take one argument: the
    parameter is bound as above and the object is copied from what it refers
    to. *)
Definition direct_initialize_by_copy (T : type) : initialized :=
  match bind_const_reference T with
  | ConvertsTo r => CopiedFrom (ref_object r)
  | why => NotInitialized why
  end.

End WithSizes.

(** A program with classes of 16 bytes, all of them initialisable from [{}]
    but [NoDefault], whose only constructor takes an argument. *)
Definition example_class_size (name : string) : option Z := Some 16.

Definition example_inst_size (tmp : string) (args : list type) : option Z :=
  Some 24.

Definition example_class_initialisable (name : string) : bool :=
  negb (String.eqb name "NoDefault").

Definition example_inst_initialisable (tmp : string) (args : list type)
  : bool := true.

End StaticValues.
Import StaticValues.

(** ** Generic reset and move-and-invalidate (lines 205-280) *)

Module Nulling.

(** The argument lists [null_value] tries for [T( args... )]: none,
    [nullptr], [std::nullopt], [( int8_t ) 0], [( uint8_t ) 0u]. *)
Variant ctor_args := NoArgs | NullptrArg | NulloptArg | Int8Zero | UInt8Zero.

(** What a call did to the object it was given, in order of execution. *)
Variant event :=
| StoreZero
| StoreNullptr
| CallReset
| CallClear
| Construct (a : ctor_args)
| Assign
| Exchange
| MoveConstruct
| CopyConstruct.

Section WithCarrier.
(** The values of the type [T] the templates are instantiated with. *)
Variable V : Type.

(** What the templates can observe of a class (or any other non-arithmetic,
    non-pointer) type: the members and special member functions the
    concepts and standard traits test, each with its meaning.
    [reset]/[clear] are present when [CustomResettable]/[CustomClearable]
    hold, [construct a] when [Constructable<T, Args>] does; [assign cur rhs]
    is the object after [cur = rhs]; [move_construct v] is the constructed
    object and the state in which the constructor leaves [v]. *)
Record class_ops := {
  reset : option (V -> V);
  clear : option (V -> V);
  is_move_assignable_v : bool;
  is_copy_assignable_v : bool;
  assign : V -> V -> V;
  construct : ctor_args -> option V;
  is_trivially_move_constructible_v : bool;
  is_move_constructible_v : bool;
  is_copy_constructible_v : bool;
  move_construct : V -> V * V;
  copy_construct : V -> V
}.

(** The type [T], by what [std::is_arithmetic_v] and [std::is_pointer_v] say
    of it.  [zero] is [( T ) 0] and [null] the null pointer of the type.
    [T] is the type deduced from a modifiable lvalue: const-qualified types,
    on which the assignment of the selected branch does not compile, are not
    described. *)
Variant cxx_type :=
| Arithmetic (zero : V)
| Pointer (null : V)
| Other (ops : class_ops).

(** An instantiation of a function template with a deduced return type:
    a [return] was instantiated; or control falls off the end, the return
    type is [void] and a call does nothing; or a statement of the
    instantiated branch does not compile, which is an error of the program
    and not a substitution failure. *)
Variant body (R : Type) :=
| Returns (run : V -> R * V * list event)
| ReturnsVoid
| HardError.
Arguments Returns {R} run.
Arguments ReturnsVoid {R}.
Arguments HardError {R}.

(** Calling it on an object: the result if any, the object afterwards, and
    what was done; nothing when there is no instantiation to call. *)
Definition invoke {R : Type} (b : body R) (ref : V)
  : option (option R * V * list event) :=
  match b with
  | Returns run => let '(r, v, log) := run ref in Some (Some r, v, log)
  | ReturnsVoid => Some (None, ref, [])
  | HardError => None
  end.

(** What a call did, when there is one. *)
Definition log_of {R : Type} (outcome : option (option R * V * list event))
  : list event :=
  match outcome with
  | Some (_, _, log) => log
  | None => []
  end.

(** [std::is_void_v] of the deduced return type; evaluating it instantiates
    the body. *)
Definition is_void {R : Type} (b : body R) : option bool :=
  match b with
  | Returns _ => Some false
  | ReturnsVoid => Some true
  | HardError => None
  end.

(** The call as a statement, its result dropped. *)
Definition call_stmt {R : Type} (b : body R) : option (V -> V * list event) :=
  match b with
  | Returns run => Some (fun v => let '(_, v', log) := run v in (v', log))
  | ReturnsVoid => Some (fun v => (v, []))
  | HardError => None
  end.

(** [{ ref = T( args ); return true; }], with [t] the constructed
    temporary.  The right-hand side is a prvalue, so overload resolution
    takes the move assignment operator wherever one is declared, deleted or
    not: the statement compiles exactly when [T] is move-assignable. *)
Definition assign_constructed (ops : class_ops) (a : ctor_args) (t : V)
  : body bool :=
  if is_move_assignable_v ops then
    Returns (fun ref => (true, assign ops ref t, [Construct a; Assign]))
  else HardError.

(** [null_value( T& ref )]. *)
Definition null_value (T : cxx_type) : body bool :=
  match T with
  | Arithmetic zero => Returns (fun ref => (true, zero, [StoreZero]))
  | Pointer null => Returns (fun ref => (true, null, [StoreNullptr]))
  | Other ops =>
    match reset ops with
    | Some do_reset => Returns (fun ref => (true, do_reset ref, [CallReset]))
    | None =>
    match clear ops with
    | Some do_clear => Returns (fun ref => (true, do_clear ref, [CallClear]))
    | None =>
    if is_move_assignable_v ops || is_copy_assignable_v ops then
      match construct ops NoArgs with
      | Some t => assign_constructed ops NoArgs t
      | None =>
      match construct ops NullptrArg with
      | Some t => assign_constructed ops NullptrArg t
      | None =>
      match construct ops NulloptArg with
      | Some t => assign_constructed ops NulloptArg t
      | None =>
      match construct ops Int8Zero with
      | Some t => assign_constructed ops Int8Zero t
      | None =>
      match construct ops UInt8Zero with
      | Some t => assign_constructed ops UInt8Zero t
      | None => ReturnsVoid
      end end end end end
    else ReturnsVoid
    end end
  end.

(** [concept Nullable]: the return type of [null_value] is not [void].
    There is no value where the body does not compile. *)
Definition Nullable (T : cxx_type) : option bool :=
  option_map negb (is_void (null_value T)).

(** What [possess_value] hands back: a [T] by value, or (through
    [decltype(auto)] on [std::move( v )]) a [T&&] still bound to the source. *)
Variant possessed :=
| Prvalue (value : V)
| XvalueOfSource.

(** [return value;] for a local [T value]: the result is initialised from
    [value] taken as an rvalue first, so the move constructor is selected
    wherever one is declared, deleted or not. *)
Definition return_local (ops : class_ops) : bool :=
  is_move_constructible_v ops.

(** [{ T value{ init }; null_value( v ); return value; }], the body of the
    second and of the fourth branch. *)
Definition possess_and_null
    (T : cxx_type) (ops : class_ops) (init : V -> V) (how : event)
  : body possessed :=
  match call_stmt (null_value T) with
  | Some null_it =>
    if return_local ops then
      Returns (fun v =>
        let value := init v in
        let '(v', log) := null_it v in
        (Prvalue value, v', how :: log))
    else HardError
  | None => HardError
  end.

(** [possess_value( T& v )]. *)
Definition possess_value (T : cxx_type) : body possessed :=
  match T with
  | Arithmetic zero | Pointer zero =>
    Returns (fun v => (Prvalue v, zero, [Exchange]))
  | Other ops =>
    if is_trivially_move_constructible_v ops then
      possess_and_null T ops (fun v => v) MoveConstruct
    else if is_move_constructible_v ops then
      Returns (fun v => (XvalueOfSource, v, []))
    else if is_copy_constructible_v ops then
      possess_and_null T ops (copy_construct ops) CopyConstruct
    else ReturnsVoid
  end.

(** [concept Possessable]. *)
Definition Possessable (T : cxx_type) : option bool :=
  option_map negb (is_void (possess_value T)).

(** Initialising a [T] from what [possess_value] returned: a prvalue is the
    object; an xvalue of the source goes through the move constructor. *)
Definition materialize (T : cxx_type) (p : possessed) (source : V)
  : V * V * list event :=
  match p, T with
  | Prvalue x, _ => (x, source, [])
  | XvalueOfSource, Other ops =>
    let '(x, source') := move_construct ops source in
    (x, source', [MoveConstruct])
  | XvalueOfSource, _ => (source, source, [MoveConstruct])
  end.

(** *** The dispatch of [null_value] as a priority list

    The mechanisms in the order the specification gives them; the first one
    the type supports is the one applied. *)
Variant mechanism :=
| SetZero
| SetNull
| InvokeReset
| InvokeClear
| AssignFrom (a : ctor_args).

Definition null_priority : list mechanism :=
  [ SetZero; SetNull; InvokeReset; InvokeClear;
    AssignFrom NoArgs; AssignFrom NullptrArg; AssignFrom NulloptArg;
    AssignFrom Int8Zero; AssignFrom UInt8Zero ].

(** Whether the type supports a mechanism, and what applying it does. *)
Definition supports (T : cxx_type) (m : mechanism)
  : option (V -> V * list event) :=
  match m, T with
  | SetZero, Arithmetic zero => Some (fun _ => (zero, [StoreZero]))
  | SetNull, Pointer null => Some (fun _ => (null, [StoreNullptr]))
  | InvokeReset, Other ops =>
    option_map (fun f ref => (f ref, [CallReset])) (reset ops)
  | InvokeClear, Other ops =>
    option_map (fun f ref => (f ref, [CallClear])) (clear ops)
  | AssignFrom a, Other ops =>
    if is_move_assignable_v ops || is_copy_assignable_v ops then
      option_map (fun t ref => (assign ops ref t, [Construct a; Assign]))
                 (construct ops a)
    else None
  | _, _ => None
  end.

Fixpoint first_supported (T : cxx_type) (ms : list mechanism)
  : option (mechanism * (V -> V * list event)) :=
  match ms with
  | [] => None
  | m :: rest =>
    match supports T m with
    | Some act => Some (m, act)
    | None => first_supported T rest
    end
  end.

(** Whether applying a mechanism assigns a temporary, and whether the type
    can be assigned one. *)
Definition by_assignment (m : mechanism) : bool :=
  match m with AssignFrom _ => true | _ => false end.

Definition assignable_from_temporary (T : cxx_type) : bool :=
  match T with
  | Other ops => is_move_assignable_v ops
  | _ => true
  end.

(** The first supported mechanism is applied and the call returns [true];
    there is no program when that mechanism assigns a temporary to a type
    that cannot take one; a call does nothing when no mechanism is
    supported. *)
Definition null_value_by_priority (T : cxx_type) (ref : V)
  : option (option bool * V * list event) :=
  match first_supported T null_priority with
  | Some (m, act) =>
    if by_assignment m && negb (assignable_from_temporary T) then None
    else let '(v, log) := act ref in Some (Some true, v, log)
  | None => Some (None, ref, [])
  end.

End WithCarrier.

Arguments reset {V} c.
Arguments clear {V} c.
Arguments is_move_assignable_v {V} c.
Arguments is_copy_assignable_v {V} c.
Arguments assign {V} c cur rhs.
Arguments construct {V} c a.
Arguments is_trivially_move_constructible_v {V} c.
Arguments is_move_constructible_v {V} c.
Arguments is_copy_constructible_v {V} c.
Arguments move_construct {V} c v.
Arguments copy_construct {V} c v.
Arguments Arithmetic {V} zero.
Arguments Pointer {V} null.
Arguments Other {V} ops.
Arguments Returns {V R} run.
Arguments ReturnsVoid {V R}.
Arguments HardError {V R}.
Arguments Prvalue {V} value.
Arguments XvalueOfSource {V}.
Arguments invoke {V R} b ref.
Arguments log_of {V R} outcome.
Arguments is_void {V R} b.
Arguments call_stmt {V R} b.
Arguments assign_constructed {V} ops a t.
Arguments null_value {V} T.
Arguments Nullable {V} T.
Arguments return_local {V} ops.
Arguments possess_and_null {V} T ops init how.
Arguments possess_value {V} T.
Arguments Possessable {V} T.
Arguments materialize {V} T p source.
Arguments supports {V} T m.
Arguments first_supported {V} T ms.
Arguments assignable_from_temporary {V} T.
Arguments null_value_by_priority {V} T ref.

(** *** Some types to instantiate the templates with *)

(** [int]: integers, zero is 0.  A pointer: addresses, null is 0. *)
Definition int_type : cxx_type Z := Arithmetic 0.
Definition pointer_type : cxx_type Z := Pointer 0.

(** A buffer with both [reset()] (drop the storage) and [clear()] (drop the
    elements, keep the capacity): its elements and its capacity. *)
Definition buffer_ops : class_ops (list Z * Z) :=
  {| reset := Some (fun _ => ([], 0));
     clear := Some (fun b => ([], snd b));
     is_move_assignable_v := true;
     is_copy_assignable_v := true;
     assign := fun _ rhs => rhs;
     construct := fun a => match a with NoArgs => Some ([], 0) | _ => None end;
     is_trivially_move_constructible_v := false;
     is_move_constructible_v := true;
     is_copy_constructible_v := true;
     move_construct := fun b => (b, ([], 0));
     copy_construct := fun b => b |}.

(** [struct S { const int x; };]: trivially copyable and movable, but with
    no default constructor and no assignment, since the member is const; an
    aggregate, so [S( ( int8_t ) 0 )] initialises the member. *)
Definition const_member_ops : class_ops Z :=
  {| reset := None;
     clear := None;
     is_move_assignable_v := false;
     is_copy_assignable_v := false;
     assign := fun cur _ => cur;
     construct := fun a =>
       match a with Int8Zero | UInt8Zero => Some 0 | _ => None end;
     is_trivially_move_constructible_v := true;
     is_move_constructible_v := true;
     is_copy_constructible_v := true;
     move_construct := fun v => (v, v);
     copy_construct := fun v => v |}.

(** A container in the manner of [std::vector<int>]: [clear()] but no
    [reset()], assignable, default-constructible, with a move constructor
    of its own that empties the source. *)
Definition container_ops : class_ops (list Z) :=
  {| reset := None;
     clear := Some (fun _ => []);
     is_move_assignable_v := true;
     is_copy_assignable_v := true;
     assign := fun _ rhs => rhs;
     construct := fun a => match a with NoArgs => Some [] | _ => None end;
     is_trivially_move_constructible_v := false;
     is_move_constructible_v := true;
     is_copy_constructible_v := true;
     move_construct := fun l => (l, []);
     copy_construct := fun l => l |}.

(** [struct P { int x; };]: a trivial aggregate; [P()] and [P( 0 )] hold
    zero. *)
Definition pod_ops : class_ops Z :=
  {| reset := None;
     clear := None;
     is_move_assignable_v := true;
     is_copy_assignable_v := true;
     assign := fun _ rhs => rhs;
     construct := fun a =>
       match a with NoArgs | Int8Zero | UInt8Zero => Some 0 | _ => None end;
     is_trivially_move_constructible_v := true;
     is_move_constructible_v := true;
     is_copy_constructible_v := true;
     move_construct := fun v => (v, v);
     copy_construct := fun v => v |}.

(** [struct Q { int x = 0; Q() {} Q& operator=( const Q& ) = default;
    Q& operator=( Q&& ) = delete; };]: default-constructible and
    copy-assignable, with the move assignment deleted (and with it the
    implicit copy constructor). *)
Definition copy_assign_only_ops : class_ops Z :=
  {| reset := None;
     clear := None;
     is_move_assignable_v := false;
     is_copy_assignable_v := true;
     assign := fun _ rhs => rhs;
     construct := fun a => match a with NoArgs => Some 0 | _ => None end;
     is_trivially_move_constructible_v := false;
     is_move_constructible_v := false;
     is_copy_constructible_v := false;
     move_construct := fun v => (v, v);
     copy_construct := fun v => v |}.

(** [struct CO { int x = 0; CO() {} CO( const CO& ) {} CO( CO&& ) = delete;
    };]: copy-constructible, with the move constructor deleted; the
    user-declared move constructor leaves no implicit assignment. *)
Definition copy_only_ops : class_ops Z :=
  {| reset := None;
     clear := None;
     is_move_assignable_v := false;
     is_copy_assignable_v := false;
     assign := fun cur _ => cur;
     construct := fun a => match a with NoArgs => Some 0 | _ => None end;
     is_trivially_move_constructible_v := false;
     is_move_constructible_v := false;
     is_copy_constructible_v := true;
     move_construct := fun v => (v, v);
     copy_construct := fun v => v |}.

End Nulling.
Import Nulling.

(** ** Sameness of types *)

Module TypeEq.

(** [std::is_same_v] on the type language, as the deduction guide of
    [std::array] uses it. *)
Definition cv_eqb (a b : cv) : bool :=
  Bool.eqb (is_c a) (is_c b) && Bool.eqb (is_v a) (is_v b).

Definition arith_eqb (a b : arith) : bool :=
  match a, b with
  | Bool_t, Bool_t | Char_t, Char_t | Int8_t, Int8_t | UInt8_t, UInt8_t
  | Int32_t, Int32_t | UInt32_t, UInt32_t | Int64_t, Int64_t
  | UInt64_t, UInt64_t | Float_t, Float_t | Double_t, Double_t => true
  | _, _ => false
  end.

Fixpoint type_eqb (a b : type) {struct a} : bool :=
  match a, b with
  | Void q1, Void q2 => cv_eqb q1 q2
  | Arith q1 k1, Arith q2 k2 => cv_eqb q1 q2 && arith_eqb k1 k2
  | Class q1 n1, Class q2 n2 => cv_eqb q1 q2 && String.eqb n1 n2
  | Inst q1 t1 a1, Inst q2 t2 a2 =>
    cv_eqb q1 q2 && String.eqb t1 t2 &&
    (fix all2 (l1 l2 : list type) : bool :=
       match l1, l2 with
       | [], [] => true
       | x :: l1', y :: l2' => type_eqb x y && all2 l1' l2'
       | _, _ => false
       end) a1 a2
  | Ptr q1 p1, Ptr q2 p2 => cv_eqb q1 q2 && type_eqb p1 p2
  | LRef r1, LRef r2 => type_eqb r1 r2
  | RRef r1, RRef r2 => type_eqb r1 r2
  | Fun r1 ps1, Fun r2 ps2 =>
    type_eqb r1 r2 &&
    (fix all2 (l1 l2 : list type) : bool :=
       match l1, l2 with
       | [], [] => true
       | x :: l1', y :: l2' => type_eqb x y && all2 l1' l2'
       | _, _ => false
       end) ps1 ps2
  | _, _ => false
  end.

(** [std::is_void_v]. *)
Definition is_void_v (t : type) : bool :=
  match t with Void _ => true | _ => false end.

End TypeEq.
Import TypeEq.

(** ** Capability detection and concepts (lines 54-75) *)

Module Concepts.

(** What evaluating [F{}()] as a constant expression of type [bool] gives:
    nothing (the callable is not default-constructible, or the call is not a
    constant expression), or a value. *)
Variant constant_evaluation :=
| NotConstant
| Constant (value : bool).

(** [std::enable_if_t<B, T>]: [T] when [B] holds, no type otherwise. *)
Definition enable_if_t (B : bool) (T : type) : option type :=
  if B then Some T else None.

(** The two overloads of [is_constexpr].  The template takes part in
    overload resolution only when its defaulted template parameter
    [std::enable_if_t<F{}(), int>] names a type; then it is the better match
    against the ellipsis. *)
Definition is_constexpr_template (F : constant_evaluation) : option bool :=
  match F with
  | Constant value =>
    match enable_if_t value int_t with
    | Some _ => Some true
    | None => None
    end
  | NotConstant => None
  end.

Definition is_constexpr_ellipsis : bool := false.

Definition is_constexpr (F : constant_evaluation) : bool :=
  match is_constexpr_template F with
  | Some result => result
  | None => is_constexpr_ellipsis
  end.

(** An expression named in a requirement: ill-formed, or well-formed, with
    its value when it is a boolean constant. *)
Variant expression :=
| IllFormedExpr
| WellFormed (value : option bool).

(** The requirements of a requires-expression: [expr;] asks that the
    expression be well-formed, [requires C;] that the constraint hold. *)
Variant requirement :=
| SimpleReq (e : expression)
| NestedReq (c : bool).

Definition satisfied (r : requirement) : bool :=
  match r with
  | SimpleReq IllFormedExpr => false
  | SimpleReq (WellFormed _) => true
  | NestedReq c => c
  end.

Definition requires_expr (rs : list requirement) : bool := forallb satisfied rs.

(** What the iteration concepts look at in a type [T], for [T v]: whether
    [std::begin( v )] and [std::end( v )] are well-formed, and the type
    [decltype( *std::begin( v ) )] when the iterator can be dereferenced. *)
Record range_ops := {
  begin_ok : bool;
  end_ok : bool;
  deref_type : option type
}.

Definition call_expr (ok : bool) : expression :=
  if ok then WellFormed None else IllFormedExpr.

(** [V&]: no reference to void; a reference to a reference collapses. *)
Definition lvalue_reference_to (V : type) : option type :=
  match V with
  | Void _ => None
  | LRef t | RRef t => Some (LRef t)
  | _ => Some (LRef V)
  end.

Section WithConvertibility.
(** [std::is_convertible_v<From, To>]. *)
Variable is_convertible_v : type -> type -> bool.

(** [concept ConvertibleTo<From, To>]. *)
Definition ConvertibleTo (From To : type) : bool := is_convertible_v From To.

(** The concept-id [ConvertibleTo<From, To>] used as an expression: a
    [bool] prvalue when both arguments name a type. *)
Definition ConvertibleTo_expr (From To : option type) : expression :=
  match From, To with
  | Some a, Some b => WellFormed (Some (ConvertibleTo a b))
  | _, _ => IllFormedExpr
  end.

(** [concept Iterable<T>] and [concept TypedIterable<V, T>]. *)
Definition Iterable (T : range_ops) : bool :=
  requires_expr [ SimpleReq (call_expr (begin_ok T));
                  SimpleReq (call_expr (end_ok T)) ].

Definition TypedIterable (V : type) (T : range_ops) : bool :=
  Iterable T &&
  requires_expr
    [ SimpleReq (ConvertibleTo_expr (deref_type T) (lvalue_reference_to V)) ].

End WithConvertibility.

(** [std::vector<std::string>] as a range. *)
Definition string_t : type := Class unqualified "std::string".

Definition vector_of_strings : range_ops :=
  {| begin_ok := true; end_ok := true; deref_type := Some (LRef string_t) |}.

End Concepts.
Import Concepts.

(** ** The casting helpers as calls (lines 133-151) *)

Module ConstCasts.

Variant category := LValue | RValue.

(** An expression as an argument or as the result of a call: its value
    category and its type, which is never a reference. *)
Record argument := { arg_category : category; arg_type : type }.

(** What a forwarding reference [T&& x] deduces [T] to. *)
Definition deduce_forwarding (x : argument) : type :=
  match arg_category x with
  | LValue => LRef (arg_type x)
  | RValue => arg_type x
  end.

(** The expression a call is, from the return type of the function. *)
Definition call_expression (R : type) : argument :=
  match R with
  | LRef t => {| arg_category := LValue; arg_type := t |}
  | RRef t => {| arg_category := RValue; arg_type := t |}
  | _ => {| arg_category := RValue; arg_type := R |}
  end.

(** [make_const( T&& x )], [make_mutable( T&& x )],
    [make_const_if<C>( T&& value )], [make_mutable_if<C>( T&& value )] and
    [carry_const( B&& base, T&& value )]: each is a cast to its return type,
    and takes part in overload resolution only when that type exists. *)
Definition make_const (x : argument) : option argument :=
  option_map call_expression (make_const_t (deduce_forwarding x)).

Definition make_mutable (x : argument) : option argument :=
  option_map call_expression (make_mutable_t (deduce_forwarding x)).

Definition make_const_if (C : bool) (value : argument) : option argument :=
  option_map call_expression (make_const_if_t C (deduce_forwarding value)).

Definition make_mutable_if (C : bool) (value : argument) : option argument :=
  option_map call_expression (make_mutable_if_t C (deduce_forwarding value)).

Definition carry_const_call (base value : argument) : option argument :=
  option_map call_expression
    (carry_const_t (deduce_forwarding base) (deduce_forwarding value)).

(** The type a reference or pointer type leads to, after [decay_ptr]. *)
Definition underlying (T : type) : option type :=
  match decay_ptr T with
  | LRef t => Some t
  | Ptr (CV false false) t => Some t
  | _ => None
  end.

End ConstCasts.
Import ConstCasts.

(** ** The visitor series (lines 188-192 and 199-203) *)

Module VisitorSeries.

(** [type_tag<T>] (lines 39-40). *)
Record type_tag := { tag_type : type }.

(** [std::decay_t], what a by-value parameter deduces from an expression:
    references and top-level qualifiers are dropped, and a function becomes
    a pointer to it. *)
Definition decay_t (T : type) : type :=
  match remove_reference_t T with
  | Fun r ps => Ptr unqualified (Fun r ps)
  | U => remove_cv_t U
  end.

Section WithElement.
Context {A : Type}.
(** Whether a type is a specialization of [std::array]. *)
Variable is_std_array : type -> bool.

(** [std::array{ x... }] on elements given with the types of the
    expressions: the deduction guide [array(T, U...)] takes its arguments by
    value, so it deduces decayed types, and requires every [U] to be the
    same as [T]. *)
Definition std_array_deduce_typed (xs : list (type * A)) : option (deduced A) :=
  match xs with
  | [] => None
  | (T, _) :: rest =>
    if forallb (fun y => type_eqb (decay_t (fst y)) (decay_t T)) rest
    then std_array_deduce (is_std_array (decay_t T)) (map snd xs)
    else None
  end.

(** [impl::make_visitor_series( f, std::integer_sequence<Ti, I...> )]:
    [std::array{ f( type_tag<Tr<I>>{} )... }].  [Tr I] is the type [Tr<I>];
    the callable gives, for each tag, a result with its type. *)
Definition impl_make_visitor_series
    (Tr : Z -> type) (f : type_tag -> type * A) (idx : list Z)
  : option (deduced A) :=
  std_array_deduce_typed (map (fun i => f {| tag_type := Tr i |}) idx).

(** [make_visitor_series<N, Tr>( f )]. *)
Definition make_visitor_series
    (N : Z) (Tr : Z -> type) (f : type_tag -> type * A) : option (deduced A) :=
  match make_integer_sequence N with
  | Some idx => impl_make_visitor_series Tr f idx
  | None => None
  end.

End WithElement.

End VisitorSeries.
Import VisitorSeries.

(** * Properties *)

(** ** Const-qualifier transforms *)

Lemma add_const_t_idempotent (t : type) :
  add_const_t (add_const_t t) = add_const_t t.
Proof. destruct t as [[c v]|[c v] k|[c v] n|[c v] tmp a|[c v] p|r|r|r ps]; reflexivity. Qed.

Lemma remove_const_add_const (t : type) :
  remove_const_t (add_const_t t) = remove_const_t t.
Proof. destruct t as [[c v]|[c v] k|[c v] n|[c v] tmp a|[c v] p|r|r|r ps]; reflexivity. Qed.

Lemma is_const_remove_const (t : type) : is_const_v (remove_const_t t) = false.
Proof. destruct t as [[c v]|[c v] k|[c v] n|[c v] tmp a|[c v] p|r|r|r ps]; reflexivity. Qed.

Lemma is_pointer_with_cv (q : cv) (t : type) :
  is_pointer_v (with_cv q t) = is_pointer_v t.
Proof. destruct t; reflexivity. Qed.

Lemma remove_cv_with_cv (q : cv) (t : type) :
  remove_cv_t (with_cv q t) = remove_cv_t t.
Proof. destruct t; reflexivity. Qed.

(** On a reference to a non-pointer, [decay_ptr] is the identity, whatever
    is done to the qualifiers of the referent. *)
Lemma decay_ptr_lref_with_cv (q : cv) (t : type) :
  is_pointer_v t = false ->
  decay_ptr (LRef (with_cv q t)) = LRef (with_cv q t).
Proof.
  intros Hp. unfold decay_ptr, remove_cvref_t. simpl.
  rewrite remove_cv_with_cv. unfold remove_cv_t.
  rewrite is_pointer_with_cv, Hp. reflexivity.
Qed.

(** The result of [decay_ptr] on a transformable type: the reference itself,
    or the bare pointer. *)
Lemma decay_ptr_cases (T : type) :
  const_transformable T = true ->
  (exists t, T = LRef t /\ is_pointer_v t = false /\ decay_ptr T = LRef t) \/
  (exists p, remove_cvref_t T = Ptr unqualified p /\
             decay_ptr T = Ptr unqualified p).
Proof.
  unfold const_transformable, decay_ptr. intros H.
  destruct (is_pointer_v (remove_cvref_t T)) eqn:Hp.
  - right. destruct T as [q|q k|q n|q tmp a|q p|r|r|r ps]; simpl in *;
      try discriminate; try (exists p; split; reflexivity);
      destruct r; simpl in *; try discriminate; eexists; split; reflexivity.
  - left. destruct T as [q|q k|q n|q tmp a|q p|r|r|r ps]; simpl in *;
      try discriminate.
    exists r. repeat split.
    unfold remove_cvref_t, remove_cv_t in Hp. simpl in Hp.
    rewrite is_pointer_with_cv in Hp. exact Hp.
Qed.

(** Where the transforms are not defined at all. *)
Lemma make_const_t_undefined (T : type) :
  const_transformable T = false ->
  make_const_t T = None /\ make_mutable_t T = None.
Proof.
  unfold const_transformable, make_const_t, make_mutable_t, decay_ptr.
  intros H. apply orb_false_elim in H as [Hl Hp]. rewrite Hp. simpl.
  destruct T as [q|q k|q n|q tmp a|q p|r|r|r ps]; simpl in *;
    try discriminate; split; reflexivity.
Qed.



Example make_const_roundtrip_on_const_reference :
  make_const_t (LRef const_int_t) = Some (LRef const_int_t) /\
  make_mutable_t (LRef const_int_t) = Some (LRef int_t) /\
  make_mutable_t (LRef (Class const_q "S")) = Some (LRef (Class unqualified "S")).
Proof. repeat split. Qed.


(** The transforms on some types: [int*&], [int* const&], [int**],
    [const volatile int&], a reference to a function, and the constness
    carried from a [const char*] base onto a pointer to function. *)
Example make_const_t_ref_to_pointer :
  make_const_t (LRef (Ptr unqualified int_t)) = Some (Ptr unqualified const_int_t) /\
  make_const_t (LRef (Ptr const_q int_t)) = Some (Ptr unqualified const_int_t) /\
  make_const_t (Ptr unqualified (Ptr unqualified int_t))
    = Some (Ptr unqualified (Ptr const_q int_t)).
Proof. repeat split; reflexivity. Qed.

Example make_mutable_t_keeps_volatile :
  make_mutable_t (LRef (Arith const_volatile_q Int32_t))
    = Some (LRef (Arith volatile_q Int32_t)).
Proof. reflexivity. Qed.

Example is_const_underlying_v_examples :
  is_const_underlying_v (LRef const_int_t) = true /\
  is_const_underlying_v (LRef (Ptr const_q const_int_t)) = true /\
  is_const_underlying_v (LRef (Ptr const_q int_t)) = false /\
  is_const_underlying_v (Ptr const_q int_t) = false.
Proof. repeat split; reflexivity. Qed.

Example carry_const_t_function_pointer :
  make_const_t (LRef (Fun (Void unqualified) [])) = Some (LRef (Fun (Void unqualified) [])) /\
  carry_const_t (LRef (Ptr unqualified (Arith const_q Char_t)))
                (Ptr unqualified (Fun (Void unqualified) []))
    = Some (Ptr unqualified (Fun (Void unqualified) [])).
Proof. split; reflexivity. Qed.

(** ** Specialization detection *)

Lemma remove_cvref_qualified (q : cv) (r : ref_kind) (T : type) :
  is_reference_v T = false ->
  remove_cvref_t (qualified q r T) = remove_cv_t T.
Proof.
  intros HT. unfold remove_cvref_t.
  destruct r; simpl; try apply remove_cv_with_cv.
  destruct T; simpl in *; try discriminate; reflexivity.
Qed.

(** C7, as the code has it: for a template [X], the detection is true on
    every instantiation [X<args...>], whatever the argument list, and on every
    cv- and reference-qualified variant of it; it is false on every type that,
    references and qualifiers dropped, is not an instantiation of [X]; so it
    is true exactly on the qualified variants of instantiations of [X]. *)
Theorem is_specialization_v_spec (X : string) :
  (forall (args : list type) (q : cv) (r : ref_kind),
      is_specialization_v X (qualified q r (Inst unqualified X args)) = true) /\
  (forall U : type,
      (forall args, remove_cvref_t U <> Inst unqualified X args) ->
      is_specialization_v X U = false) /\
  (forall U : type,
      is_specialization_v X U = true <->
      exists args, remove_cvref_t U = Inst unqualified X args).
Proof.
  assert (Hiff : forall U : type,
             is_specialization_v X U = true <->
             exists args, remove_cvref_t U = Inst unqualified X args).
  { intros U. unfold is_specialization_v. split.
    - destruct (remove_cvref_t U) as [q|q k|q n|[[] []] tmp a|q p|t|t|t ps];
        simpl; try discriminate.
      intros H. apply String.eqb_eq in H. subst tmp. exists a. reflexivity.
    - intros [args ->]. simpl. apply String.eqb_refl. }
  split; [|split].
  - intros args q r. apply Hiff. exists args.
    rewrite remove_cvref_qualified by reflexivity. reflexivity.
  - intros U HU. destruct (is_specialization_v X U) eqn:E; [|reflexivity].
    apply Hiff in E as [args E]. elim (HU args E).
  - exact Hiff.
Qed.

(** C7 as stated fails on its last clause: an instantiation of the same
    template with another argument list is a different type, and the
    detection is still true on it. *)
Lemma is_specialization_v_other_arguments :
  Inst unqualified "X" [float_t] <> Inst unqualified "X" [int_t] /\
  is_specialization_v "X" (Inst unqualified "X" [int_t]) = true /\
  is_specialization_v "X" (Inst unqualified "X" [float_t]) = true.
Proof. split; [discriminate|split; reflexivity]. Qed.

(** An instantiation of another template over the same arguments is not
    detected. *)
Example is_specialization_v_other_template :
  is_specialization_v "X" (LRef (Inst const_q "Y" [int_t])) = false.
Proof. reflexivity. Qed.

(** ** Typed offset access *)

Lemma uint64_cast_mod (z : Z) : uint64_cast z = z mod 2 ^ 64.
Proof. unfold uint64_cast. apply Z.land_ones. lia. Qed.

Lemma testbit_31_of_u32 (u : Z) :
  0 <= u < 2 ^ 32 -> Z.testbit u 31 = negb (u <? 2 ^ 31).
Proof.
  intros Hu. destruct (u <? 2 ^ 31) eqn:E; cbn [negb].
  - apply Z.ltb_lt in E. destruct (Z.eq_dec u 0) as [->|Hn]; [reflexivity|].
    apply Z.bits_above_log2; [lia|]. apply Z.log2_lt_pow2; lia.
  - apply Z.ltb_ge in E. apply Z.testbit_true; [lia|].
    assert (u / 2 ^ 31 = 1) as ->; [|reflexivity].
    symmetry. apply Z.div_unique with (r := u - 2 ^ 31); lia.
Qed.

Lemma int32_cast_signed (z : Z) :
  int32_cast z = reinterpret_signed32 (z mod 2 ^ 32).
Proof.
  unfold int32_cast, reinterpret_signed32.
  rewrite Z.land_ones by lia.
  assert (H : 0 <= z mod 2 ^ 32 < 2 ^ 32) by (apply Z.mod_pos_bound; lia).
  rewrite testbit_31_of_u32 by exact H.
  destruct (z mod 2 ^ 32 <? 2 ^ 31); reflexivity.
Qed.

Lemma int32_cast_range (z : Z) : INT32_MIN <= int32_cast z <= INT32_MAX.
Proof.
  rewrite int32_cast_signed. unfold reinterpret_signed32, INT32_MIN, INT32_MAX.
  assert (H : 0 <= z mod 2 ^ 32 < 2 ^ 32) by (apply Z.mod_pos_bound; lia).
  destruct (z mod 2 ^ 32 <? 2 ^ 31) eqn:E;
    [apply Z.ltb_lt in E | apply Z.ltb_ge in E]; lia.
Qed.

Lemma int32_cast_small (z : Z) :
  INT32_MIN <= z <= INT32_MAX -> int32_cast z = z.
Proof.
  unfold INT32_MIN, INT32_MAX. intros Hz.
  rewrite int32_cast_signed. unfold reinterpret_signed32.
  destruct (Z_lt_le_dec z 0) as [Hneg|Hpos].
  - assert (z mod 2 ^ 32 = z + 2 ^ 32) as ->.
    { symmetry. apply Z.mod_unique with (q := -1); lia. }
    destruct (z + 2 ^ 32 <? 2 ^ 31) eqn:E;
      [apply Z.ltb_lt in E | apply Z.ltb_ge in E]; lia.
  - rewrite Z.mod_small by lia.
    destruct (z <? 2 ^ 31) eqn:E;
      [apply Z.ltb_lt in E | apply Z.ltb_ge in E]; lia.
Qed.

Lemma make_offset_unfold (ref : member_ptr) :
  make_offset ref = int32_cast (mp_offset ref mod 2 ^ 64).
Proof. unfold make_offset. simpl. rewrite uint64_cast_mod. reflexivity. Qed.

Lemma mod_64_mod_32 (z : Z) : (z mod 2 ^ 64) mod 2 ^ 32 = z mod 2 ^ 32.
Proof.
  replace (2 ^ 64) with (2 ^ 32 * 2 ^ 32) by reflexivity.
  rewrite Z.rem_mul_r by lia.
  rewrite Z.mul_comm, Z.mod_add by lia. apply Z.mod_mod. lia.
Qed.

Lemma make_offset_signed (ref : member_ptr) :
  make_offset ref = reinterpret_signed32 (mp_offset ref mod 2 ^ 32).
Proof.
  rewrite make_offset_unfold, int32_cast_signed, mod_64_mod_32. reflexivity.
Qed.

Lemma make_offset_small (ref : member_ptr) :
  INT32_MIN <= mp_offset ref <= INT32_MAX -> make_offset ref = mp_offset ref.
Proof.
  intros H. rewrite make_offset_signed, <- int32_cast_signed.
  apply int32_cast_small, H.
Qed.

(** C10: [make_offset] is a signed 32-bit number, the truncation of the
    64-bit address of the member behind a null base: the member's offset
    itself when that fits in a signed 32-bit integer, and in any case the
    offset reduced modulo 2^32 and read as a signed 32-bit number. *)
Theorem make_offset_truncation (ref : member_ptr) :
  INT32_MIN <= make_offset ref <= INT32_MAX /\
  make_offset ref = reinterpret_signed32 (mp_offset ref mod 2 ^ 32) /\
  (INT32_MIN <= mp_offset ref <= INT32_MAX -> make_offset ref = mp_offset ref).
Proof.
  split; [|split].
  - rewrite make_offset_unfold. apply int32_cast_range.
  - apply make_offset_signed.
  - apply make_offset_small.
Qed.

(** The pointer [ptr_at] builds, for any base and offset: the address is the
    sum modulo 2^64, the type a pointer to the target with the constness of
    the base's pointee. *)
Lemma ptr_at_value (T B : type) (q : cv) (a off : Z) :
  is_reference_v T = false ->
  ptr_at T {| ptr_type := Ptr q B; ptr_addr := a |} off =
  Some {| ptr_type := pointer_like B T;
          ptr_addr := (a + off) mod 2 ^ 64 |}.
Proof.
  intros Hr.
  unfold ptr_at, carry_const, carry_const_t, pointer_like. simpl. rewrite Hr.
  rewrite !uint64_cast_mod, <- Z.add_mod by lia.
  unfold is_const_underlying_v, decay_ptr, remove_cvref_t. simpl.
  destruct (is_const_v B); reflexivity.
Qed.

Lemma ptr_at_reference (T : type) (base : pointer) (off : Z) :
  is_reference_v T = true -> ptr_at T base off = None.
Proof.
  intros Hr. unfold ptr_at. destruct (ptr_type base); try reflexivity.
  rewrite Hr. reflexivity.
Qed.

Lemma ref_at_value (T : type) (base : pointer) (off : Z) :
  ref_at T base off =
  if is_void_v T then None else option_map deref (ptr_at T base off).
Proof. destruct T; reflexivity. Qed.

(** [ptr_at] is well-formed exactly for a target that is not a reference;
    then, for every base pointer and offset, its address is the base plus
    the offset modulo 2^64, and its type a pointer to [const T] when the base
    points to a const type and to [T] without its const otherwise. *)
Theorem ptr_at_address_and_type (T B : type) (q : cv) (a off : Z) :
  (is_reference_v T = true ->
   ptr_at T {| ptr_type := Ptr q B; ptr_addr := a |} off = None) /\
  (is_reference_v T = false ->
   exists p : pointer,
     ptr_at T {| ptr_type := Ptr q B; ptr_addr := a |} off = Some p /\
     ptr_addr p = (a + off) mod 2 ^ 64 /\
     ptr_type p =
       Ptr unqualified
           (if is_const_v B then add_const_t T else remove_const_t T)).
Proof.
  split.
  - apply ptr_at_reference.
  - intros Hr. rewrite ptr_at_value by exact Hr.
    eexists. split; [reflexivity|]. split; reflexivity.
Qed.

Lemma is_const_underlying_pointer_like (B T : type) :
  is_reference_v T = false -> is_function_v T = false ->
  is_const_underlying_v (pointer_like B T) = is_const_v B.
Proof.
  intros Hr Hf. unfold pointer_like, is_const_underlying_v, decay_ptr,
    remove_cvref_t. simpl.
  destruct (is_const_v B);
    destruct T as [[c v]|[c v] k|[c v] n|[c v] tmp a|[c v] p|r|r|r ps];
    simpl in *; try discriminate; reflexivity.
Qed.

(** C6, as the code has it: for a member whose byte offset fits in a signed
    32-bit integer, [make_offset] is that offset; for every base pointer and
    every 32-bit offset, [ptr_at] is a pointer at the address of the base
    plus the offset modulo 2^64, to the target type up to its const
    qualifier, which is that of the base's pointee ([T] an object type or
    void); [ref_at] is that pointer dereferenced, and is ill-formed for
    void; so at the address of an instance and the offset of a member they
    designate the member [base->*m]. *)
Theorem typed_offset_access
    (m : member_ptr) (T B : type) (q : cv) (base : pointer) :
  0 <= mp_offset m <= INT32_MAX ->
  ptr_type base = Ptr q B ->
  0 <= ptr_addr base < 2 ^ 64 ->
  is_reference_v T = false -> is_function_v T = false ->
  make_offset m = mp_offset m /\
  (forall off : Z,
      INT32_MIN <= off <= INT32_MAX ->
      exists (p : pointer) (T' : type),
        ptr_at T base off = Some p /\
        ptr_addr p = (ptr_addr base + off) mod 2 ^ 64 /\
        ptr_type p = Ptr unqualified T' /\
        remove_const_t T' = remove_const_t T /\
        is_const_v T' = is_const_v B /\
        is_const_underlying_v (ptr_type p) = is_const_v B /\
        ref_at T base off = (if is_void_v T then None else Some (deref p))) /\
  (is_void_v T = false ->
   ptr_addr base + mp_offset m < 2 ^ 64 ->
   exists lv : lvalue,
     ref_at T base (make_offset m) = Some lv /\
     lv_addr lv = lv_addr (arrow_star base m) /\
     remove_const_t (lv_type lv) = remove_const_t T /\
     is_const_v (lv_type lv) = is_const_v B).
Proof.
  intros Hm Hb Ha Hr Hf.
  assert (Hoff : make_offset m = mp_offset m).
  { apply make_offset_small. unfold INT32_MIN. lia. }
  assert (Hrm : remove_const_t
                  (if is_const_v B then add_const_t T else remove_const_t T)
                = remove_const_t T).
  { destruct (is_const_v B); [apply remove_const_add_const|].
    destruct T as [[c v]|[c v] k|[c v] n|[c v] tmp ar|[c v] p|r|r|r ps];
      reflexivity. }
  assert (Hc : is_const_v
                 (if is_const_v B then add_const_t T else remove_const_t T)
               = is_const_v B).
  { destruct (is_const_v B);
      destruct T as [[c v]|[c v] k|[c v] n|[c v] tmp ar|[c v] p|r|r|r ps];
      simpl in *; try discriminate; reflexivity. }
  destruct base as [bt a]. simpl in Hb, Ha. subst bt.
  split; [exact Hoff|]. split.
  - intros off Ho.
    exists {| ptr_type := pointer_like B T; ptr_addr := (a + off) mod 2 ^ 64 |}.
    exists (if is_const_v B then add_const_t T else remove_const_t T).
    rewrite ref_at_value, ptr_at_value by exact Hr. simpl.
    repeat split; try assumption;
      try (apply is_const_underlying_pointer_like; assumption).
  - simpl. intros Hv Hin. rewrite Hoff, ref_at_value, Hv.
    rewrite ptr_at_value by exact Hr. simpl.
    eexists. split; [reflexivity|]. simpl.
    split; [apply Z.mod_small; lia|]. split; assumption.
Qed.

Lemma typed_offset_access_witness :
  make_offset near_member = 24 /\
  exists lv : lvalue,
    ref_at const_int_t
      {| ptr_type := Ptr unqualified (Class const_q "small"); ptr_addr := 4096 |}
      (make_offset near_member) = Some lv /\
    lv_addr lv = 4120.
Proof.
  destruct (typed_offset_access near_member const_int_t
              (Class const_q "small") unqualified
              {| ptr_type := Ptr unqualified (Class const_q "small");
                 ptr_addr := 4096 |})
    as (Hoff & _ & Hmember).
  - unfold INT32_MAX. simpl. lia.
  - reflexivity.
  - simpl. lia.
  - reflexivity.
  - reflexivity.
  - split; [exact Hoff|].
    destruct Hmember as (lv & Hlv & Haddr & _); [reflexivity|simpl; lia|].
    exists lv. split; [exact Hlv|exact Haddr].
Defined.

Example ref_at_void :
  ptr_at (Void unqualified)
    {| ptr_type := Ptr unqualified (Class const_q "small"); ptr_addr := 4096 |} 8
  = Some {| ptr_type := Ptr unqualified (Void const_q); ptr_addr := 4104 |} /\
  ref_at (Void unqualified)
    {| ptr_type := Ptr unqualified (Class const_q "small"); ptr_addr := 4096 |} 8
  = None /\
  ptr_at (LRef int_t)
    {| ptr_type := Ptr unqualified (Class const_q "small"); ptr_addr := 4096 |} 8
  = None.
Proof. repeat split. Qed.

(** C6 as stated fails on a member that lies 2 GiB or more into its class:
    the offset does not fit the [int32_t] that [make_offset] returns, and the
    pointer [ptr_at] builds from it is not the member's. *)
Lemma make_offset_far_member :
  mp_offset far_member = 2 ^ 31 /\
  make_offset far_member = - 2 ^ 31 /\
  option_map ptr_addr
    (ptr_at int_t
       {| ptr_type := Ptr unqualified (Class unqualified "big");
          ptr_addr := 2 ^ 32 |}
       (make_offset far_member)) = Some (2 ^ 32 - 2 ^ 31) /\
  lv_addr (arrow_star
             {| ptr_type := Ptr unqualified (Class unqualified "big");
                ptr_addr := 2 ^ 32 |} far_member) = 2 ^ 32 + 2 ^ 31.
Proof. repeat split; vm_compute; reflexivity. Qed.

(** ** Compile-time series *)

Lemma std_array_deduce_some {A : Type} (is_array : bool) (xs : list A) :
  xs <> [] ->
  (List.length xs = 1%nat -> is_array = false) ->
  std_array_deduce is_array xs = Some (Array (List.length xs) xs).
Proof.
  intros Hne Hone. destruct xs as [|x [|y rest]].
  - contradiction.
  - simpl. rewrite (Hone eq_refl). reflexivity.
  - reflexivity.
Qed.

Lemma nth_error_indices (n i : nat) :
  (i < n)%nat ->
  nth_error (map Z.of_nat (seq 0 n)) i = Some (Z.of_nat i).
Proof.
  intros Hi. apply map_nth_error.
  rewrite (nth_error_nth' _ 0%nat) by (rewrite length_seq; exact Hi).
  rewrite seq_nth by exact Hi. reflexivity.
Qed.

Lemma make_integer_sequence_some (N : Z) :
  0 <= N ->
  make_integer_sequence N = Some (map Z.of_nat (seq 0 (Z.to_nat N))).
Proof.
  intros HN. unfold make_integer_sequence.
  destruct (N <? 0) eqn:E; [apply Z.ltb_lt in E; lia|reflexivity].
Qed.

(** C3, as the code has it: for a count [N] of at least one and a callable
    [f] (whose result is not itself a [std::array] when [N] is one),
    [make_expanded_series<N>( f )] is a [std::array] of size [N] holding
    [f(0)], ..., [f(N-1)] in this order. *)
Theorem make_expanded_series_elements
    {A : Type} (elem_is_std_array : bool) (N : Z) (f : Z -> A) :
  1 <= N ->
  (N = 1 -> elem_is_std_array = false) ->
  exists elems : list A,
    make_expanded_series elem_is_std_array N f =
      Some (Array (Z.to_nat N) elems) /\
    List.length elems = Z.to_nat N /\
    forall i : Z, 0 <= i < N -> nth_error elems (Z.to_nat i) = Some (f i).
Proof.
  intros HN Hone.
  exists (map f (map Z.of_nat (seq 0 (Z.to_nat N)))).
  assert (Hlen : List.length (map f (map Z.of_nat (seq 0 (Z.to_nat N))))
                 = Z.to_nat N)
    by (rewrite !length_map, length_seq; reflexivity).
  split; [|split].
  - unfold make_expanded_series, impl_make_expanded_series.
    rewrite make_integer_sequence_some by lia.
    rewrite std_array_deduce_some; [rewrite Hlen; reflexivity| |].
    + intros E. apply (f_equal (@List.length A)) in E.
      rewrite Hlen in E. simpl in E. lia.
    + rewrite Hlen. intros E. apply Hone. lia.
  - exact Hlen.
  - intros i Hi. apply map_nth_error.
    rewrite nth_error_indices by lia. f_equal. lia.
Qed.

Lemma make_expanded_series_elements_witness :
  exists elems : list Z,
    make_expanded_series false 3 (fun i => 2 * i) = Some (Array 3 elems) /\
    List.length elems = 3%nat /\
    forall i : Z, 0 <= i < 3 ->
      nth_error elems (Z.to_nat i) = Some ((fun i => 2 * i) i).
Proof.
  apply (make_expanded_series_elements false 3 (fun i => 2 * i)).
  - lia.
  - intros H. discriminate H.
Defined.

Example make_expanded_series_3 :
  make_expanded_series false 3 (fun i => 2 * i) = Some (Array 3 [0; 2; 4]).
Proof. reflexivity. Qed.

(** C3 as stated fails at [N = 0]: the expansion is [std::array{}], from
    which neither the element type nor the size can be deduced, so the
    instantiation is ill-formed and there is no empty sequence. *)
Lemma make_expanded_series_zero :
  make_expanded_series false 0 (fun i : Z => 2 * i) = None /\
  make_expanded_series true 0 (fun i : Z => 2 * i) = None.
Proof. split; reflexivity. Qed.

(** With [N = 1] and a callable returning a [std::array], the result is the
    callable's own array (copy deduction), not an array of size one. *)
Example make_expanded_series_copy_deduction :
  make_expanded_series true 1 (fun i : Z => [i; i; i; i]) =
  Some (CopyOf [0; 0; 0; 0]).
Proof. reflexivity. Qed.

(** A negative count has no index sequence. *)
Example make_expanded_series_negative :
  make_expanded_series false (-1) (fun i : Z => i) = None.
Proof. reflexivity. Qed.

(** ** The static default *)

Section StaticDefault.
Variable class_size : string -> option Z.
Variable inst_size : string -> list type -> option Z.
Variable class_initialisable : string -> bool.
Variable inst_initialisable : string -> list type -> bool.
(** No object is as large as the whole address space: sizes are positive and
    bounded by [PTRDIFF_MAX]. *)
Hypothesis class_size_bound :
  forall n s, class_size n = Some s -> 0 < s <= PTRDIFF_MAX.
Hypothesis inst_size_bound :
  forall tmp args s, inst_size tmp args = Some s -> 0 < s <= PTRDIFF_MAX.

Lemma sizeof_below_size_max (T : type) (n : Z) :
  sizeof class_size inst_size T = Some n -> n <> SIZE_MAX.
Proof.
  unfold SIZE_MAX. revert n.
  induction T as [q|q k|q name|q tmp args|q p _|r IH|r IH|r _ ps];
    simpl; intros n H; try discriminate.
  - injection H as <-. destruct k; simpl; lia.
  - apply class_size_bound in H. unfold PTRDIFF_MAX in H. lia.
  - apply inst_size_bound in H. unfold PTRDIFF_MAX in H. lia.
  - injection H as <-. lia.
  - apply IH, H.
  - apply IH, H.
Qed.

Lemma default_instance_complete (T : type) :
  default_instance_exists class_size inst_size
    class_initialisable inst_initialisable T = true ->
  is_reference_v T = false /\ is_void_v T = false /\
  is_function_v T = false /\ sizeof class_size inst_size T <> None.
Proof.
  destruct T as [q|q k|q name|q tmp args|q p|r|r|r ps]; simpl;
    try discriminate; intros H; repeat split; try discriminate.
  - destruct (class_size name); [discriminate|discriminate H].
  - destruct (inst_size tmp args); [discriminate|discriminate H].
Qed.


End StaticDefault.



(** ** Generic reset *)

Section NullValue.
Context {V : Type}.

Lemma first_supported_none (T : cxx_type V) (ms : list mechanism) :
  first_supported T ms = None <-> forall m, In m ms -> supports T m = None.
Proof.
  induction ms as [|m0 rest IH]; simpl.
  - split; [intros _ m []|reflexivity].
  - destruct (supports T m0) eqn:E.
    + split; [discriminate|]. intros H.
      rewrite (H m0 (or_introl eq_refl)) in E. discriminate.
    + rewrite IH. split.
      * intros H m [<-|Hin]; [exact E|apply H, Hin].
      * intros H m Hin. apply H. right. exact Hin.
Qed.

Lemma first_supported_in (T : cxx_type V) (ms : list mechanism)
    (m : mechanism) (act : V -> V * list event) :
  first_supported T ms = Some (m, act) -> In m ms /\ supports T m = Some act.
Proof.
  induction ms as [|m0 rest IH]; simpl; [discriminate|].
  destruct (supports T m0) eqn:E.
  - intros H. injection H as <- <-. split; [left; reflexivity|exact E].
  - intros H. destruct (IH H) as [Hin Hs]. split; [right; exact Hin|exact Hs].
Qed.

Ltac case_constructs ops :=
  repeat match goal with
         | |- context [construct ops ?a] =>
           destruct (construct ops a); simpl; [reflexivity|]
         end.

(** The cascade of [null_value] applies the first supported mechanism of the
    priority list, and is ill-formed where that mechanism assigns a
    temporary the type cannot take. *)
Lemma null_value_by_priority_correct (T : cxx_type V) (ref : V) :
  invoke (null_value T) ref = null_value_by_priority T ref.
Proof.
  unfold null_value_by_priority.
  destruct T as [zero|null|ops]; simpl; [reflexivity|reflexivity|].
  destruct (reset ops); simpl; [reflexivity|].
  destruct (clear ops); simpl; [reflexivity|].
  unfold assign_constructed.
  destruct (is_move_assignable_v ops), (is_copy_assignable_v ops); simpl;
    try reflexivity; case_constructs ops; reflexivity.
Qed.

Lemma Nullable_by_priority (T : cxx_type V) :
  Nullable T =
  match first_supported T null_priority with
  | Some (m, _) =>
    if by_assignment m && negb (assignable_from_temporary T) then None
    else Some true
  | None => Some false
  end.
Proof.
  unfold Nullable.
  destruct T as [zero|null|ops]; simpl; [reflexivity|reflexivity|].
  destruct (reset ops); simpl; [reflexivity|].
  destruct (clear ops); simpl; [reflexivity|].
  unfold assign_constructed.
  destruct (is_move_assignable_v ops), (is_copy_assignable_v ops); simpl;
    try reflexivity; case_constructs ops; reflexivity.
Qed.


(** C9: on a type with both [reset()] and [clear()], [null_value] calls
    [reset()], and only that: the object becomes what [reset()] makes of it
    and [clear()] is not called. *)
Theorem null_value_reset_before_clear
    (ops : class_ops V) (do_reset do_clear : V -> V) (ref : V) :
  reset ops = Some do_reset ->
  clear ops = Some do_clear ->
  invoke (null_value (Other ops)) ref
    = Some (Some true, do_reset ref, [CallReset]) /\
  ~ In CallClear (log_of (invoke (null_value (Other ops)) ref)).
Proof.
  intros Hreset Hclear. simpl. rewrite Hreset. simpl.
  split; [reflexivity|]. intros [H|[]]. discriminate H.
Qed.

(** A type with [reset()] or [clear()] is nulled through that member, and
    through nothing else, whatever constructors and assignment operators it
    has, usable or not: with [reset()] the object becomes what [reset()]
    makes of it, with [clear()] alone what [clear()] makes of it; the call
    returns [true] and the type is [Nullable]. *)
Theorem null_value_no_fallback (ops : class_ops V) (ref : V) :
  (forall do_reset : V -> V,
      reset ops = Some do_reset ->
      invoke (null_value (Other ops)) ref
      = Some (Some true, do_reset ref, [CallReset])) /\
  (forall do_clear : V -> V,
      reset ops = None -> clear ops = Some do_clear ->
      invoke (null_value (Other ops)) ref
      = Some (Some true, do_clear ref, [CallClear])) /\
  (reset ops <> None \/ clear ops <> None ->
   Nullable (Other ops) = Some true).
Proof.
  unfold Nullable. simpl.
  destruct (reset ops) as [r|] eqn:Er; simpl.
  - split; [|split].
    + intros r' E. injection E as <-. reflexivity.
    + discriminate.
    + reflexivity.
  - destruct (clear ops) as [c|] eqn:Ec; simpl.
    + split; [discriminate|]. split.
      * intros c' _ E. injection E as <-. reflexivity.
      * reflexivity.
    + split; [discriminate|]. split; [discriminate|].
      intros [H|H]; elim H; reflexivity.
Qed.

End NullValue.

Lemma null_value_reset_before_clear_witness :
  invoke (null_value (Other buffer_ops)) ([1; 2], 8)
    = Some (Some true, ([], 0), [CallReset]) /\
  ~ In CallClear
      (log_of (invoke (null_value (Other buffer_ops)) ([1; 2], 8))).
Proof.
  apply (null_value_reset_before_clear buffer_ops
           (fun _ => ([], 0)) (fun b => ([], snd b)) ([1; 2], 8));
    reflexivity.
Defined.

Example null_value_int :
  invoke (null_value int_type) 42 = Some (Some true, 0, [StoreZero]).
Proof. reflexivity. Qed.

Example null_value_container :
  invoke (null_value (Other container_ops)) [1; 2; 3]
  = Some (Some true, [], [CallClear]).
Proof. reflexivity. Qed.

Example null_value_pod :
  invoke (null_value (Other pod_ops)) 42
  = Some (Some true, 0, [Construct NoArgs; Assign]).
Proof. reflexivity. Qed.

Example const_member_not_nullable :
  Nullable (Other const_member_ops) = Some false.
Proof. reflexivity. Qed.

(** C1 at [struct Q] with a default constructor, a copy assignment and a
    deleted move assignment: the type is copy-assignable, so the assignment
    branch is entered and [T()] selected, but [ref = T()] assigns a
    temporary and selects the deleted move assignment: the instantiation
    does not compile, nothing is assigned, no success is reported, and
    [Nullable] has no value. *)
Theorem null_value_copy_assignable_only :
  is_move_assignable_v copy_assign_only_ops
    || is_copy_assignable_v copy_assign_only_ops = true /\
  construct copy_assign_only_ops NoArgs = Some 0 /\
  null_value (Other copy_assign_only_ops) = HardError /\
  invoke (null_value (Other copy_assign_only_ops)) 7 = None /\
  Nullable (Other copy_assign_only_ops) = None.
Proof. repeat split. Qed.

(** ** Move-and-invalidate *)

Section PossessValue.
Context {V : Type}.


End PossessValue.


Example possess_value_pod :
  invoke (possess_value (Other pod_ops)) 42
  = Some (Some (Prvalue 42), 0, [MoveConstruct; Construct NoArgs; Assign]).
Proof. reflexivity. Qed.

Example possess_value_int :
  invoke (possess_value int_type) 42 = Some (Some (Prvalue 42), 0, [Exchange]).
Proof. reflexivity. Qed.

Example possess_value_copy_only :
  possess_value (Other copy_only_ops) = HardError /\
  Possessable (Other copy_only_ops) = None.
Proof. split; reflexivity. Qed.

(** C2 at [struct S { const int x; }]: the type is trivially
    move-constructible, so the second branch is taken, but it is not
    [Nullable], so [null_value( v )] does nothing: the value is copied out
    and the source keeps it. *)
Theorem possess_value_const_member_not_nulled :
  is_trivially_move_constructible_v const_member_ops = true /\
  Possessable (Other const_member_ops) = Some true /\
  Nullable (Other const_member_ops) = Some false /\
  invoke (possess_value (Other const_member_ops)) 7
    = Some (Some (Prvalue 7), 7, [MoveConstruct]).
Proof. repeat split; reflexivity. Qed.

(** ** More on the const-qualifier transforms *)

Lemma decay_ptr_lref (t : type) :
  is_pointer_v t = false -> decay_ptr (LRef t) = LRef t.
Proof.
  intros Hp. unfold decay_ptr, remove_cvref_t, remove_cv_t. simpl.
  rewrite is_pointer_with_cv, Hp. reflexivity.
Qed.

Lemma is_pointer_add_const (t : type) :
  is_pointer_v (add_const_t t) = is_pointer_v t.
Proof. apply is_pointer_with_cv. Qed.

Lemma is_pointer_remove_const (t : type) :
  is_pointer_v (remove_const_t t) = is_pointer_v t.
Proof. apply is_pointer_with_cv. Qed.

Lemma is_const_add_const (u : type) :
  is_function_v u = false -> is_reference_v u = false ->
  is_const_v (add_const_t u) = true.
Proof. destruct u; simpl; try discriminate; reflexivity. Qed.

Lemma add_const_fixpoint (u : type) :
  is_function_v u = false -> is_reference_v u = false ->
  (is_const_v u = true <-> add_const_t u = u).
Proof.
  destruct u as [[c v]|[c v] k|[c v] n|[c v] tmp a|[c v] p|r|r|r ps];
    simpl; try discriminate; intros _ _; destruct c; simpl;
    split; intros H; try reflexivity; try discriminate; congruence.
Qed.

Lemma remove_const_fixpoint (u : type) :
  is_const_v u = false <-> remove_const_t u = u.
Proof.
  destruct u as [[c v]|[c v] k|[c v] n|[c v] tmp a|[c v] p|r|r|r ps];
    simpl; try (split; reflexivity); destruct c; simpl;
    split; intros H; try reflexivity; try discriminate; congruence.
Qed.

(** The two shapes of a transformable type and what every helper is on
    each: a reference [t&] to a non-pointer, or a type that decays to the
    pointer [p*]. *)
Lemma transform_shapes (T : type) :
  const_transformable T = true ->
  exists u : type,
    underlying T = Some u /\
    is_const_underlying_v T = is_const_v u /\
    ((is_pointer_v u = false /\
      T = LRef u /\
      decay_ptr T = LRef u /\
      make_const_t T = Some (LRef (add_const_t u)) /\
      make_mutable_t T = Some (LRef (remove_const_t u))) \/
     (decay_ptr T = Ptr unqualified u /\
      make_const_t T = Some (Ptr unqualified (add_const_t u)) /\
      make_mutable_t T = Some (Ptr unqualified (remove_const_t u)))).
Proof.
  intros H. destruct (decay_ptr_cases T H) as [(t & -> & Hp & Hd)|(p & Hr & Hd)].
  - exists t. unfold underlying, is_const_underlying_v, make_const_t,
      make_mutable_t. rewrite Hd. simpl.
    split; [reflexivity|]. split; [reflexivity|]. left. repeat split; assumption.
  - exists p. unfold underlying, is_const_underlying_v, make_const_t,
      make_mutable_t. rewrite Hd. simpl.
    split; [reflexivity|]. split; [reflexivity|]. right. repeat split.
Qed.

Lemma underlying_transformable (T u : type) :
  underlying T = Some u -> const_transformable T = true.
Proof.
  unfold underlying. intros H.
  destruct (const_transformable T) eqn:E; [reflexivity|].
  destruct (make_const_t_undefined T E) as [Hc _].
  unfold make_const_t, impl_make_const in Hc.
  destruct (decay_ptr T) as [q|q k|q n|q tmp a|[[] []] p|r|r|r ps];
    discriminate.
Qed.

(** What the helpers are on the two result shapes. *)
Lemma helpers_on_lref (t : type) :
  is_pointer_v t = false ->
  make_const_t (LRef t) = Some (LRef (add_const_t t)) /\
  make_mutable_t (LRef t) = Some (LRef (remove_const_t t)) /\
  is_const_underlying_v (LRef t) = is_const_v t.
Proof.
  intros Hp. unfold make_const_t, make_mutable_t, is_const_underlying_v.
  rewrite decay_ptr_lref by exact Hp. repeat split.
Qed.

Lemma helpers_on_ptr (p : type) :
  make_const_t (Ptr unqualified p) = Some (Ptr unqualified (add_const_t p)) /\
  make_mutable_t (Ptr unqualified p) = Some (Ptr unqualified (remove_const_t p)) /\
  is_const_underlying_v (Ptr unqualified p) = is_const_v p.
Proof. repeat split. Qed.

(** After [make_const_t] the underlying type is const, after
    [make_mutable_t] it is not; and a type whose underlying type is already
    const (already mutable) is left as it is, up to the decay of a pointer:
    the const types are exactly the fixed points of [make_const_t]. *)
Theorem make_const_t_makes_const (T u : type) :
  underlying T = Some u ->
  is_function_v u = false ->
  is_reference_v u = false ->
  exists C M : type,
    make_const_t T = Some C /\
    make_mutable_t T = Some M /\
    is_const_underlying_v C = true /\
    is_mutable_underlying_v M = true /\
    (is_const_underlying_v T = true <-> C = decay_ptr T) /\
    (is_mutable_underlying_v T = true <-> M = decay_ptr T).
Proof.
  intros Hu Hf Hr.
  destruct (transform_shapes T (underlying_transformable T u Hu))
    as (u' & Hu' & Hc & [(Hp & _ & Hd & HC & HM)|(Hd & HC & HM)]);
    rewrite Hu in Hu'; injection Hu' as <-;
    unfold is_mutable_underlying_v; fold (is_const_underlying_v T);
    rewrite Hc, Hd.
  - exists (LRef (add_const_t u)), (LRef (remove_const_t u)).
    split; [exact HC|]. split; [exact HM|].
    destruct (helpers_on_lref (add_const_t u)) as (_ & _ & ->);
      [rewrite is_pointer_add_const; exact Hp|].
    fold (is_const_underlying_v (LRef (remove_const_t u))).
    destruct (helpers_on_lref (remove_const_t u)) as (_ & _ & ->);
      [rewrite is_pointer_remove_const; exact Hp|].
    rewrite is_const_add_const, is_const_remove_const by assumption.
    repeat split; try reflexivity.
    + intros H. f_equal. apply add_const_fixpoint; assumption.
    + intros H. apply add_const_fixpoint; congruence.
    + intros H. f_equal. apply remove_const_fixpoint.
      destruct (is_const_v u); [discriminate|reflexivity].
    + intros H. assert (E : remove_const_t u = u) by congruence.
      apply remove_const_fixpoint in E. rewrite E. reflexivity.
  - exists (Ptr unqualified (add_const_t u)), (Ptr unqualified (remove_const_t u)).
    split; [exact HC|]. split; [exact HM|].
    fold (is_const_underlying_v (Ptr unqualified (remove_const_t u))).
    destruct (helpers_on_ptr (add_const_t u)) as (_ & _ & ->).
    destruct (helpers_on_ptr (remove_const_t u)) as (_ & _ & ->).
    rewrite is_const_add_const, is_const_remove_const by assumption.
    repeat split; try reflexivity.
    + intros H. f_equal. apply add_const_fixpoint; assumption.
    + intros H. apply add_const_fixpoint; congruence.
    + intros H. f_equal. apply remove_const_fixpoint.
      destruct (is_const_v u); [discriminate|reflexivity].
    + intros H. assert (E : remove_const_t u = u) by congruence.
      apply remove_const_fixpoint in E. rewrite E. reflexivity.
Qed.

Lemma make_const_t_makes_const_witness :
  exists C M : type,
    make_const_t (LRef (Ptr const_q int_t)) = Some C /\
    make_mutable_t (LRef (Ptr const_q int_t)) = Some M /\
    is_const_underlying_v C = true /\
    is_mutable_underlying_v M = true /\
    (is_const_underlying_v (LRef (Ptr const_q int_t)) = true
     <-> C = decay_ptr (LRef (Ptr const_q int_t))) /\
    (is_mutable_underlying_v (LRef (Ptr const_q int_t)) = true
     <-> M = decay_ptr (LRef (Ptr const_q int_t))).
Proof.
  apply (make_const_t_makes_const (LRef (Ptr const_q int_t)) int_t);
    reflexivity.
Defined.

(** [carry_const_t<B, T>] has the constness of [B]'s underlying type
    ([B] need not be a reference or a pointer: anything else counts as
    mutable), differs from [T] in that qualifier only, and carrying the
    same base a second time changes nothing. *)
Theorem carry_const_t_carries (B T u : type) :
  underlying T = Some u ->
  is_function_v u = false ->
  is_reference_v u = false ->
  exists R : type,
    carry_const_t B T = Some R /\
    is_const_underlying_v R = is_const_underlying_v B /\
    make_mutable_t R = make_mutable_t T /\
    carry_const_t B R = Some R.
Proof.
  intros Hu Hf Hr.
  destruct (transform_shapes T (underlying_transformable T u Hu))
    as (u' & Hu' & _ & [(Hp & _ & _ & HC & HM)|(_ & HC & HM)]);
    rewrite Hu in Hu'; injection Hu' as <-;
    unfold carry_const_t; rewrite HC, HM; unfold conditional_t;
    destruct (is_const_underlying_v B).
  - exists (LRef (add_const_t u)).
    destruct (helpers_on_lref (add_const_t u)) as (-> & -> & ->);
      [rewrite is_pointer_add_const; exact Hp|].
    rewrite is_const_add_const, add_const_t_idempotent,
      remove_const_add_const by assumption.
    repeat split.
  - exists (LRef (remove_const_t u)).
    destruct (helpers_on_lref (remove_const_t u)) as (-> & -> & ->);
      [rewrite is_pointer_remove_const; exact Hp|].
    rewrite is_const_remove_const.
    assert (E : remove_const_t (remove_const_t u) = remove_const_t u)
      by (apply remove_const_fixpoint, is_const_remove_const).
    rewrite E. repeat split.
  - exists (Ptr unqualified (add_const_t u)).
    destruct (helpers_on_ptr (add_const_t u)) as (-> & -> & ->).
    rewrite is_const_add_const, add_const_t_idempotent,
      remove_const_add_const by assumption.
    repeat split.
  - exists (Ptr unqualified (remove_const_t u)).
    destruct (helpers_on_ptr (remove_const_t u)) as (-> & -> & ->).
    rewrite is_const_remove_const.
    assert (E : remove_const_t (remove_const_t u) = remove_const_t u)
      by (apply remove_const_fixpoint, is_const_remove_const).
    rewrite E. repeat split.
Qed.

Lemma carry_const_t_carries_witness :
  exists R : type,
    carry_const_t int_t (LRef const_int_t) = Some R /\
    is_const_underlying_v R = is_const_underlying_v int_t /\
    make_mutable_t R = make_mutable_t (LRef const_int_t) /\
    carry_const_t int_t R = Some R.
Proof.
  apply (carry_const_t_carries int_t (LRef const_int_t) const_int_t);
    reflexivity.
Defined.

(** The conditional aliases: with a true condition they are the
    transform; with a false one they are the type itself, but only where
    the transform exists, since [std::conditional_t] needs both of its
    arguments: on a plain value or an rvalue reference the alias is
    ill-formed whatever the condition.  [carry_const_t] is likewise
    ill-formed exactly where the transforms are, whatever the base. *)
Theorem conditional_transforms_defined (B T : type) :
  make_const_if_t true T = make_const_t T /\
  make_mutable_if_t true T = make_mutable_t T /\
  make_const_if_t false T = (if const_transformable T then Some T else None) /\
  make_mutable_if_t false T = (if const_transformable T then Some T else None) /\
  (carry_const_t B T = None <-> const_transformable T = false).
Proof.
  unfold make_const_if_t, make_mutable_if_t, carry_const_t, conditional_t.
  destruct (const_transformable T) eqn:E.
  - destruct (transform_shapes T E)
      as (u & _ & _ & [(_ & _ & _ & -> & ->)|(_ & -> & ->)]);
      repeat split; try discriminate;
      destruct (is_const_underlying_v B); discriminate.
  - destruct (make_const_t_undefined T E) as [-> ->].
    repeat split; reflexivity.
Qed.

Example make_const_if_t_on_value :
  make_const_if_t false int_t = None /\
  make_const_if_t false (RRef int_t) = None /\
  make_const_if_t false (LRef int_t) = Some (LRef int_t) /\
  make_const_if_t false (LRef (Ptr const_q int_t)) = Some (LRef (Ptr const_q int_t)).
Proof. repeat split. Qed.

(** On a pointer the helpers look through a reference to the pointer and
    through the pointer's own qualifiers: whatever these are, the results
    are pointers by value, and the constness reported is the pointee's, not
    the pointer's. *)
Theorem pointer_helpers_ignore_qualifiers (q : cv) (r : ref_kind) (p : type) :
  make_const_t (qualified q r (Ptr unqualified p))
    = Some (Ptr unqualified (add_const_t p)) /\
  make_mutable_t (qualified q r (Ptr unqualified p))
    = Some (Ptr unqualified (remove_const_t p)) /\
  is_const_underlying_v (qualified q r (Ptr unqualified p)) = is_const_v p.
Proof. destruct r; repeat split. Qed.

(** ** The casting helpers as calls *)

Lemma transformable_argument (x : argument) :
  is_reference_v (arg_type x) = false ->
  const_transformable (deduce_forwarding x) =
  match arg_category x with
  | LValue => true
  | RValue => is_pointer_v (arg_type x)
  end.
Proof.
  destruct x as [[|] U]; simpl; intros HU; unfold deduce_forwarding; simpl.
  - reflexivity.
  - unfold const_transformable, remove_cvref_t, remove_cv_t.
    destruct U; simpl in *; try discriminate; reflexivity.
Qed.

(** [make_const( x )] and [make_mutable( x )] can be called on every
    lvalue, and on an rvalue only when it is a pointer.  What [make_const]
    returns can be passed on: [make_const] of it is the same expression
    again, and [make_mutable] of it is [make_mutable( x )]. *)
Theorem make_const_call_chain (x : argument) :
  is_reference_v (arg_type x) = false ->
  (make_const x <> None <->
   arg_category x = LValue \/ is_pointer_v (arg_type x) = true) /\
  (make_mutable x <> None <-> make_const x <> None) /\
  (forall y : argument,
      make_const x = Some y ->
      make_const y = Some y /\
      make_mutable y = make_mutable x /\
      make_mutable x <> None).
Proof.
  intros HU. pose proof (transformable_argument x HU) as Ht.
  unfold make_const, make_mutable.
  destruct (const_transformable (deduce_forwarding x)) eqn:E.
  - destruct (transform_shapes _ E)
      as (u & _ & _ & [(Hp & _ & _ & HC & HM)|(_ & HC & HM)]);
      rewrite HC, HM; simpl.
    + split; [|split].
      * split; [intros _|discriminate].
        destruct (arg_category x); [left; reflexivity|right; congruence].
      * split; discriminate.
      * intros y Hy. injection Hy as <-.
        change (deduce_forwarding
                  {| arg_category := LValue; arg_type := add_const_t u |})
          with (LRef (add_const_t u)).
        destruct (helpers_on_lref (add_const_t u)) as (-> & -> & _);
          [rewrite is_pointer_add_const; exact Hp|].
        rewrite add_const_t_idempotent, remove_const_add_const. simpl.
        repeat split. discriminate.
    + split; [|split].
      * split; [intros _|discriminate].
        destruct (arg_category x); [left; reflexivity|right; congruence].
      * split; discriminate.
      * intros y Hy. injection Hy as <-.
        change (deduce_forwarding
                  {| arg_category := RValue;
                     arg_type := Ptr unqualified (add_const_t u) |})
          with (Ptr unqualified (add_const_t u)).
        destruct (helpers_on_ptr (add_const_t u)) as (-> & -> & _).
        rewrite add_const_t_idempotent, remove_const_add_const. simpl.
        repeat split. discriminate.
  - destruct (make_const_t_undefined _ E) as [-> ->]. simpl.
    split; [|split].
    + split; [intros H; elim H; reflexivity|].
      intros [Hl|Hp]; [rewrite Hl in Ht|]; [discriminate|].
      destruct (arg_category x); [discriminate|congruence].
    + split; intros H; elim H; reflexivity.
    + intros y Hy. discriminate Hy.
Qed.

Lemma make_const_call_chain_witness :
  make_const {| arg_category := RValue; arg_type := Ptr unqualified int_t |}
    <> None /\
  make_const {| arg_category := RValue; arg_type := int_t |} = None.
Proof.
  destruct (make_const_call_chain
              {| arg_category := RValue; arg_type := Ptr unqualified int_t |})
    as (Hdef & _ & _); [reflexivity|].
  split; [apply Hdef; right; reflexivity|reflexivity].
Defined.

(** ** Sameness of types *)

Section TypeInduction.
Variable P : type -> Prop.
Hypothesis HVoid : forall q, P (Void q).
Hypothesis HArith : forall q k, P (Arith q k).
Hypothesis HClass : forall q n, P (Class q n).
Hypothesis HInst : forall q tmp args, Forall P args -> P (Inst q tmp args).
Hypothesis HPtr : forall q p, P p -> P (Ptr q p).
Hypothesis HLRef : forall r, P r -> P (LRef r).
Hypothesis HRRef : forall r, P r -> P (RRef r).
Hypothesis HFun : forall r ps, P r -> Forall P ps -> P (Fun r ps).

(** Induction on types that also reaches the argument lists. *)
Fixpoint type_nested_ind (t : type) : P t :=
  match t with
  | Void q => HVoid q
  | Arith q k => HArith q k
  | Class q n => HClass q n
  | Inst q tmp args =>
    HInst q tmp args
      ((fix go (l : list type) : Forall P l :=
          match l with
          | [] => Forall_nil P
          | x :: l' => Forall_cons x (type_nested_ind x) (go l')
          end) args)
  | Ptr q p => HPtr q p (type_nested_ind p)
  | LRef r => HLRef r (type_nested_ind r)
  | RRef r => HRRef r (type_nested_ind r)
  | Fun r ps =>
    HFun r ps (type_nested_ind r)
      ((fix go (l : list type) : Forall P l :=
          match l with
          | [] => Forall_nil P
          | x :: l' => Forall_cons x (type_nested_ind x) (go l')
          end) ps)
  end.

End TypeInduction.

Lemma cv_eqb_eq (a b : cv) : cv_eqb a b = true <-> a = b.
Proof.
  destruct a as [[] []], b as [[] []]; simpl; split; intros H;
    try reflexivity; try discriminate.
Qed.

Lemma arith_eqb_eq (a b : arith) : arith_eqb a b = true <-> a = b.
Proof.
  destruct a, b; simpl; split; intros H; try reflexivity; discriminate.
Qed.

Lemma all2_type_eqb_eq (l1 : list type) :
  Forall (fun a => forall b, type_eqb a b = true <-> a = b) l1 ->
  forall l2 : list type,
    (fix all2 (l1 l2 : list type) : bool :=
       match l1, l2 with
       | [], [] => true
       | x :: l1', y :: l2' => type_eqb x y && all2 l1' l2'
       | _, _ => false
       end) l1 l2 = true <-> l1 = l2.
Proof.
  induction 1 as [|x l1 Hx _ IH]; intros [|y l2]; simpl;
    try (split; [reflexivity|reflexivity]);
    try (split; discriminate).
  rewrite andb_true_iff, Hx, IH. split.
  - intros [-> ->]. reflexivity.
  - intros H. injection H as -> ->. split; reflexivity.
Qed.

(** [type_eqb] decides equality of types. *)
Lemma type_eqb_eq (a b : type) : type_eqb a b = true <-> a = b.
Proof.
  revert b. induction a using type_nested_ind; intros b; destruct b; simpl;
    try (split; discriminate).
  - rewrite cv_eqb_eq. split; congruence.
  - rewrite andb_true_iff, cv_eqb_eq, arith_eqb_eq. split.
    + intros [-> ->]. reflexivity.
    + intros E. injection E as -> ->. split; reflexivity.
  - rewrite andb_true_iff, cv_eqb_eq, String.eqb_eq. split.
    + intros [-> ->]. reflexivity.
    + intros E. injection E as -> ->. split; reflexivity.
  - rewrite !andb_true_iff, cv_eqb_eq, String.eqb_eq,
      (all2_type_eqb_eq args H). split.
    + intros [[-> ->] ->]. reflexivity.
    + intros E. injection E as -> -> ->. repeat split.
  - rewrite andb_true_iff, cv_eqb_eq, IHa. split.
    + intros [-> ->]. reflexivity.
    + intros E. injection E as -> ->. split; reflexivity.
  - rewrite IHa. split; congruence.
  - rewrite IHa. split; congruence.
  - rewrite andb_true_iff, IHa, (all2_type_eqb_eq ps H). split.
    + intros [-> ->]. reflexivity.
    + intros E. injection E as -> ->. split; reflexivity.
Qed.

(** ** More on the series *)

Lemma std_array_deduce_none {A : Type} (is_array : bool) (xs : list A) :
  std_array_deduce is_array xs = None <-> xs = [].
Proof.
  destruct xs as [|x [|y rest]]; simpl.
  - split; reflexivity.
  - destruct is_array; split; discriminate.
  - split; discriminate.
Qed.

Lemma indices_cons (n : nat) :
  map Z.of_nat (seq 0 (S n)) = 0 :: map Z.of_nat (seq 1 n).
Proof. reflexivity. Qed.

Lemma in_indices (n : nat) (i : Z) :
  In i (map Z.of_nat (seq 1 n)) <-> 1 <= i < 1 + Z.of_nat n.
Proof.
  rewrite in_map_iff. split.
  - intros (k & <- & Hk). apply in_seq in Hk. lia.
  - intros Hi. exists (Z.to_nat i). split; [lia|]. apply in_seq. lia.
Qed.

(** The series exists exactly for a count of at least one: zero deduces
    nothing and a negative count has no index sequence. *)
Theorem make_expanded_series_defined
    {A : Type} (elem_is_std_array : bool) (N : Z) (f : Z -> A) :
  make_expanded_series elem_is_std_array N f <> None <-> 1 <= N.
Proof.
  unfold make_expanded_series, impl_make_expanded_series, make_integer_sequence.
  destruct (N <? 0) eqn:E.
  - apply Z.ltb_lt in E. split; [intros H; elim H; reflexivity|lia].
  - apply Z.ltb_ge in E. rewrite std_array_deduce_none. split.
    + intros H. destruct (Z.eq_dec N 0) as [->|]; [elim H; reflexivity|lia].
    + intros HN Hnil. apply (f_equal (@List.length A)) in Hnil.
      rewrite !length_map, length_seq in Hnil. simpl in Hnil. lia.
Qed.

Section VisitorSeriesFacts.
Context {A : Type}.
Variable is_std_array : type -> bool.
Variable Tr : Z -> type.
Variable f : type_tag -> type * A.

Lemma visitor_results (n : nat) :
  map (fun i => f {| tag_type := Tr i |}) (map Z.of_nat (seq 0 (S n))) =
  f {| tag_type := Tr 0 |}
    :: map (fun i => f {| tag_type := Tr i |}) (map Z.of_nat (seq 1 n)).
Proof. reflexivity. Qed.

(** With results of one decayed type the series is the deduction on the
    values alone. *)
Lemma visitor_series_same_types (N : Z) :
  1 <= N ->
  (forall i : Z, 0 <= i < N ->
     decay_t (fst (f {| tag_type := Tr i |}))
     = decay_t (fst (f {| tag_type := Tr 0 |}))) ->
  make_visitor_series is_std_array N Tr f =
  std_array_deduce (is_std_array (decay_t (fst (f {| tag_type := Tr 0 |}))))
    (map (fun i => snd (f {| tag_type := Tr i |}))
         (map Z.of_nat (seq 0 (Z.to_nat N)))).
Proof.
  intros HN Hsame.
  unfold make_visitor_series, impl_make_visitor_series.
  rewrite make_integer_sequence_some by lia.
  destruct (Z.to_nat N) as [|n] eqn:En; [lia|].
  rewrite visitor_results. unfold std_array_deduce_typed.
  destruct (f {| tag_type := Tr 0 |}) as [T0 x0] eqn:E0.
  assert (Hall : forallb (fun y => type_eqb (decay_t (fst y)) (decay_t T0))
                   (map (fun i => f {| tag_type := Tr i |})
                        (map Z.of_nat (seq 1 n))) = true).
  { apply forallb_forall. intros y Hy. apply in_map_iff in Hy as (i & <- & Hi).
    apply in_indices in Hi. apply type_eqb_eq.
    rewrite Hsame by lia. reflexivity. }
  rewrite Hall. rewrite <- E0, <- visitor_results, map_map.
  rewrite E0. reflexivity.
Qed.

(** With results of two decayed types there is no series. *)
Lemma visitor_series_mixed_types (N i : Z) :
  0 <= i < N ->
  decay_t (fst (f {| tag_type := Tr i |}))
  <> decay_t (fst (f {| tag_type := Tr 0 |})) ->
  make_visitor_series is_std_array N Tr f = None.
Proof.
  unfold make_visitor_series, impl_make_visitor_series, make_integer_sequence.
  intros Hi Hdiff. destruct (N <? 0) eqn:E; [reflexivity|].
  destruct (Z.to_nat N) as [|n] eqn:En; [lia|].
  rewrite visitor_results. unfold std_array_deduce_typed.
  destruct (f {| tag_type := Tr 0 |}) as [T0 x0] eqn:E0.
  destruct (forallb _ _) eqn:Hall; [|reflexivity].
  exfalso. apply Hdiff. simpl.
  assert (Hi1 : 1 <= i < 1 + Z.of_nat n).
  { destruct (Z.eq_dec i 0) as [->|]; [|lia].
    elim Hdiff. rewrite E0. reflexivity. }
  rewrite forallb_forall in Hall.
  apply type_eqb_eq. apply (Hall (f {| tag_type := Tr i |})).
  apply in_map_iff. exists i. split; [reflexivity|].
  apply in_indices. exact Hi1.
Qed.



End VisitorSeriesFacts.


Example make_visitor_series_mixed_types :
  make_visitor_series (fun _ => false) 2
    (fun i => if i =? 0 then int_t else float_t)
    (fun tag => (tag_type tag, 1)) = None.
Proof. reflexivity. Qed.

(** Results that differ only in reference-ness or top-level const deduce
    one element type. *)
Example make_visitor_series_reference_and_value :
  make_visitor_series (fun _ => false) 3
    (fun i => if i =? 0 then LRef int_t
              else if i =? 1 then int_t else LRef const_int_t)
    (fun tag => (tag_type tag, 1)) = Some (Array 3 [1; 1; 1]).
Proof. reflexivity. Qed.

(** ** More on typed offset access *)

Lemma is_const_pointee_like (B T : type) :
  is_reference_v T = false -> is_function_v T = false ->
  is_const_v (if is_const_v B then add_const_t T else remove_const_t T)
  = is_const_v B.
Proof.
  intros Hr Hf. destruct (is_const_v B).
  - apply is_const_add_const; assumption.
  - apply is_const_remove_const.
Qed.

(** Offsets add up, and the constness of the first base goes through: for
    targets that are not references,
    [ptr_at<T2>( ptr_at<T1>( base, off1 ), off2 )] is
    [ptr_at<T2>( base, off1 + off2 )], at the address of the base plus both
    offsets modulo 2^64; stepping back by the same offset returns to the
    address of the base. *)
Theorem ptr_at_chain (T1 T2 B : type) (q : cv) (a off1 off2 : Z) :
  is_reference_v T1 = false ->
  is_function_v T1 = false ->
  is_reference_v T2 = false ->
  INT32_MIN <= off1 <= INT32_MAX ->
  INT32_MIN <= off2 <= INT32_MAX ->
  INT32_MIN <= off1 + off2 <= INT32_MAX ->
  exists p1 p2 : pointer,
    ptr_at T1 {| ptr_type := Ptr q B; ptr_addr := a |} off1 = Some p1 /\
    ptr_at T2 p1 off2 = Some p2 /\
    ptr_at T2 {| ptr_type := Ptr q B; ptr_addr := a |} (off1 + off2) = Some p2 /\
    ptr_addr p2 = (a + off1 + off2) mod 2 ^ 64 /\
    (off2 = - off1 -> ptr_addr p2 = a mod 2 ^ 64).
Proof.
  intros Hr Hf Hr2 _ _ _.
  exists {| ptr_type := pointer_like B T1; ptr_addr := (a + off1) mod 2 ^ 64 |}.
  exists {| ptr_type := pointer_like B T2;
            ptr_addr := (a + off1 + off2) mod 2 ^ 64 |}.
  rewrite !ptr_at_value by assumption. split; [reflexivity|].
  unfold pointer_like at 1. rewrite ptr_at_value by assumption.
  unfold pointer_like. rewrite is_const_pointee_like by assumption.
  rewrite Z.add_mod_idemp_l by lia. rewrite Z.add_assoc.
  repeat split. simpl. intros ->. f_equal. lia.
Qed.

Lemma ptr_at_chain_witness :
  exists p1 p2 : pointer,
    ptr_at int_t
      {| ptr_type := Ptr unqualified (Class const_q "small"); ptr_addr := 4096 |}
      24 = Some p1 /\
    ptr_at float_t p1 (-24) = Some p2 /\
    ptr_at float_t
      {| ptr_type := Ptr unqualified (Class const_q "small"); ptr_addr := 4096 |}
      (24 + -24) = Some p2 /\
    ptr_addr p2 = (4096 + 24 + -24) mod 2 ^ 64 /\
    (-24 = - 24 -> ptr_addr p2 = 4096 mod 2 ^ 64).
Proof.
  apply (ptr_at_chain int_t float_t (Class const_q "small") unqualified
           4096 24 (-24));
    try reflexivity; unfold INT32_MIN, INT32_MAX; lia.
Defined.

(** ** Capability detection and concepts *)

(** [is_constexpr( f )] is true exactly when calling a default-constructed
    [f] is a constant expression whose value is [true]: a callable that
    cannot be evaluated at compile time gives [false], and so does one
    that can and returns [false]. *)
Theorem is_constexpr_true_iff (F : constant_evaluation) :
  (is_constexpr F = true <-> F = Constant true) /\
  is_constexpr (Constant false) = false /\
  is_constexpr NotConstant = false.
Proof.
  split; [|split; reflexivity].
  destruct F as [|[|]]; simpl; split; intros H;
    try reflexivity; discriminate.
Qed.

(** [TypedIterable<V, T>] never looks at whether the elements convert to
    [V&]: it holds exactly when [T] is [Iterable], its iterators can be
    dereferenced and [V] is not void, whatever [std::is_convertible_v] says;
    so every two non-void element types are accepted alike. *)
Theorem TypedIterable_ignores_convertibility
    (is_convertible_v : type -> type -> bool) (V : type) (T : range_ops) :
  TypedIterable is_convertible_v V T =
    Iterable T
    && match deref_type T with Some _ => true | None => false end
    && negb (is_void_v V) /\
  (forall (is_convertible_v' : type -> type -> bool) (V' : type),
      is_void_v V' = is_void_v V ->
      TypedIterable is_convertible_v' V' T = TypedIterable is_convertible_v V T).
Proof.
  assert (H : forall conv W,
             TypedIterable conv W T =
             Iterable T
             && match deref_type T with Some _ => true | None => false end
             && negb (is_void_v W)).
  { intros conv W. unfold TypedIterable, ConvertibleTo_expr.
    destruct (Iterable T); simpl; [|reflexivity].
    destruct (deref_type T); simpl; [|reflexivity].
    destruct W; reflexivity. }
  split; [apply H|]. intros conv' V' HV. rewrite !H, HV. reflexivity.
Qed.

Example TypedIterable_int_over_strings :
  ConvertibleTo (fun _ _ => false) (LRef string_t) (LRef int_t) = false /\
  TypedIterable (fun _ _ => false) int_t vector_of_strings = true /\
  TypedIterable (fun _ _ => true) (Void unqualified) vector_of_strings = false.
Proof. repeat split. Qed.

(** ** Offsets that [make_offset] cannot tell apart *)

Lemma reinterpret_signed32_injective (u w : Z) :
  0 <= u < 2 ^ 32 -> 0 <= w < 2 ^ 32 ->
  reinterpret_signed32 u = reinterpret_signed32 w -> u = w.
Proof.
  unfold reinterpret_signed32. intros Hu Hw.
  destruct (u <? 2 ^ 31) eqn:Eu; destruct (w <? 2 ^ 31) eqn:Ew;
    try apply Z.ltb_lt in Eu; try apply Z.ltb_ge in Eu;
    try apply Z.ltb_lt in Ew; try apply Z.ltb_ge in Ew; lia.
Qed.

(** [make_offset] gives the same number for two members exactly when their
    offsets agree modulo 2^32: inside a class of less than 4 GiB distinct
    offsets are never confused, and offsets 4 GiB apart always are. *)
Theorem make_offset_equal_iff (m1 m2 : member_ptr) :
  make_offset m1 = make_offset m2 <->
  mp_offset m1 mod 2 ^ 32 = mp_offset m2 mod 2 ^ 32.
Proof.
  rewrite !make_offset_signed. split.
  - apply reinterpret_signed32_injective; apply Z.mod_pos_bound; lia.
  - intros ->. reflexivity.
Qed.
